(** * Task-list query, filter and pagination engine of the Dashboard view

    A shallow embedding of the [Dashboard] component of
    [frontend/src/App.js]: the URL-backed query state ([searchParams],
    [handleFilterChange], the pagination buttons), the derived filter
    snapshot, the form validation effect, the debounced [loadTasks]
    effect and the continuation of [loadTasks] after the request settles.
    Further sections embed the task modal ([openTaskModal],
    [handleTaskSubmit], [deleteTask]), the status counts and the
    presentation helpers, [AuthProvider] with the axios interceptors and
    the routes of [App], the registration form and the users pagination
    of the admin panel.

    Conventions.
    - A JavaScript string is the list of its UTF-16 code units.
    - A JavaScript number is an integer or [NaN]; fractions, infinities
      and the loss of precision beyond 2^53 are outside the model.
    - A [URLSearchParams] object is its ordered list of entries; the
      textual query string ([toString] and the parse done by the router)
      is identified with that list.
    - Time is an integer count of milliseconds. *)

From Stdlib Require Import ZArith NArith List String Ascii Bool Lia.
From Stdlib Require Decimal DecimalPos DecimalZ.
Import ListNotations.

(* ================================================================== *)
(** ** JavaScript strings *)

(** A string is its sequence of UTF-16 code units. *)
Definition jsstring := list N.

Definition lit (s : string) : jsstring :=
  map N_of_ascii (list_ascii_of_string s).
Arguments lit s%_string.

Definition str_eqb (a b : jsstring) : bool :=
  if list_eq_dec N.eq_dec a b then true else false.

(** Truthiness of a string value: every string but the empty one. *)
Definition truthy (s : jsstring) : bool :=
  match s with [] => false | _ :: _ => true end.

(** [x || d] where [x] is a string or [null]. *)
Definition or_else (x : option jsstring) (d : jsstring) : jsstring :=
  match x with
  | Some s => if truthy s then s else d
  | None => d
  end.

(** ECMAScript WhiteSpace and LineTerminator code units, the set that
    [String.prototype.trim] and [parseInt] strip. *)
Definition isWhiteSpace (c : N) : bool :=
  ((9 <=? c) && (c <=? 13) || (c =? 32) || (c =? 160) || (c =? 5760)
   || (8192 <=? c) && (c <=? 8202) || (c =? 8232) || (c =? 8233)
   || (c =? 8239) || (c =? 8287) || (c =? 12288) || (c =? 65279))%N.

Fixpoint trimStart (s : jsstring) : jsstring :=
  match s with
  | c :: s' => if isWhiteSpace c then trimStart s' else s
  | [] => []
  end.

Definition trimEnd (s : jsstring) : jsstring := rev (trimStart (rev s)).

Definition trim (s : jsstring) : jsstring := trimEnd (trimStart s).

(** [s.isWellFormed()]: every element is a code unit and no surrogate
    stands alone. These are the strings that the conversion to a
    [USVString] leaves as they are. *)
Definition isHighSurrogate (c : N) : bool := ((55296 <=? c) && (c <=? 56319))%N.

Definition isLowSurrogate (c : N) : bool := ((56320 <=? c) && (c <=? 57343))%N.

Fixpoint isWellFormed (s : jsstring) : bool :=
  match s with
  | [] => true
  | c :: s' =>
      if isHighSurrogate c then
        match s' with
        | d :: s'' => isLowSurrogate d && isWellFormed s''
        | [] => false
        end
      else (c <? 65536)%N && negb (isLowSurrogate c) && isWellFormed s'
  end.

(* ================================================================== *)
(** ** JavaScript numbers *)

(** The numbers of the view are page numbers and counts: an integer or
    [NaN]. Arithmetic on [Z] is the arithmetic of the code as long as
    the integers are safe ([Number.isSafeInteger]): a double holds
    every integer up to 2^53 exactly, so one step above or below a safe
    integer is exact as well. The statements below that depend on it
    say so. *)
Inductive number : Type :=
| Num (z : Z)
| NaN.

Definition MAX_SAFE_INTEGER : Z := 9007199254740991.

Definition isSafeInteger (n : number) : bool :=
  match n with
  | Num z => (Z.abs z <=? MAX_SAFE_INTEGER)%Z
  | NaN => false
  end.

Definition number_eq_dec (a b : number) : {a = b} + {a <> b}.
Proof. decide equality. apply Z.eq_dec. Defined.

(** [a === b] on numbers: [NaN] is different from everything. *)
Definition strict_eq (a b : number) : bool :=
  match a, b with
  | Num x, Num y => (x =? y)%Z
  | _, _ => false
  end.

(** [a < b] and [a > b]: false as soon as one side is [NaN]. *)
Definition js_lt (a b : number) : bool :=
  match a, b with
  | Num x, Num y => (x <? y)%Z
  | _, _ => false
  end.

Definition js_gt (a b : number) : bool := js_lt b a.

Definition js_add (a b : number) : number :=
  match a, b with
  | Num x, Num y => Num (x + y)
  | _, _ => NaN
  end.

Definition js_sub (a b : number) : number :=
  match a, b with
  | Num x, Num y => Num (x - y)
  | _, _ => NaN
  end.

Definition Math_max (a b : number) : number :=
  match a, b with
  | Num x, Num y => Num (Z.max x y)
  | _, _ => NaN
  end.

Definition Math_min (a b : number) : number :=
  match a, b with
  | Num x, Num y => Num (Z.min x y)
  | _, _ => NaN
  end.

(** [Number.prototype.toString] of an integer below 10^21 in absolute
    value: its decimal digits, with [-] for a negative one. *)
Fixpoint uint_units (d : Decimal.uint) : jsstring :=
  match d with
  | Decimal.Nil => []
  | Decimal.D0 d => 48%N :: uint_units d
  | Decimal.D1 d => 49%N :: uint_units d
  | Decimal.D2 d => 50%N :: uint_units d
  | Decimal.D3 d => 51%N :: uint_units d
  | Decimal.D4 d => 52%N :: uint_units d
  | Decimal.D5 d => 53%N :: uint_units d
  | Decimal.D6 d => 54%N :: uint_units d
  | Decimal.D7 d => 55%N :: uint_units d
  | Decimal.D8 d => 56%N :: uint_units d
  | Decimal.D9 d => 57%N :: uint_units d
  end.

Definition toString (n : number) : jsstring :=
  match n with
  | NaN => lit "NaN"
  | Num z =>
      match Z.to_int z with
      | Decimal.Pos d => uint_units d
      | Decimal.Neg d => 45%N :: uint_units d
      end
  end.

(** [parseInt(s, 10)]: leading white space is skipped, one sign is
    accepted, then the longest run of decimal digits is read; no digit
    at all gives [NaN]. The result is the integer the digits denote;
    the code rounds it to a double, which changes nothing up to 2^53. *)
Definition digit_value (c : N) : option N :=
  if ((48 <=? c) && (c <=? 57))%N then Some (c - 48)%N else None.

Fixpoint digits_prefix (s : jsstring) : list N :=
  match s with
  | c :: s' =>
      match digit_value c with
      | Some d => d :: digits_prefix s'
      | None => []
      end
  | [] => []
  end.

Definition decimal_value (ds : list N) : N :=
  fold_left (fun acc d => 10 * acc + d)%N ds 0%N.

(** A leading [-] (45) or [+] (43) and what follows it. *)
Definition read_sign (s : jsstring) : Z * jsstring :=
  match s with
  | 45%N :: r => ((-1)%Z, r)
  | 43%N :: r => (1%Z, r)
  | _ => (1%Z, s)
  end.

Definition parseInt (s : jsstring) : number :=
  let '(sign, s2) := read_sign (trimStart s) in
  match digits_prefix s2 with
  | [] => NaN
  | ds => Num (sign * Z.of_N (decimal_value ds))
  end.

(* ================================================================== *)
(** ** URLSearchParams *)

(** The list of name-value pairs of the query. The methods convert the
    strings they are given to [USVString]s, which leaves a well-formed
    string ([isWellFormed]) as it is; the statements below that store
    or look up arbitrary strings are about well-formed ones. *)
Definition URLSearchParams := list (jsstring * jsstring).

Definition named (name : jsstring) (e : jsstring * jsstring) : bool :=
  str_eqb (fst e) name.

(** [sp.get(name)]: the value of the first entry called [name], or
    [null]. *)
Fixpoint usp_get (name : jsstring) (sp : URLSearchParams) : option jsstring :=
  match sp with
  | [] => None
  | e :: sp' => if named name e then Some (snd e) else usp_get name sp'
  end.

Definition usp_has (name : jsstring) (sp : URLSearchParams) : bool :=
  existsb (named name) sp.

(** [sp.delete(name)]: every entry called [name] is removed. *)
Definition usp_delete (name : jsstring) (sp : URLSearchParams) : URLSearchParams :=
  filter (fun e => negb (named name e)) sp.

(** [sp.set(name, value)]: the first entry called [name] takes the
    value and the other entries of that name are removed; without such
    an entry a new one is appended. *)
Fixpoint usp_set (name value : jsstring) (sp : URLSearchParams) : URLSearchParams :=
  match sp with
  | [] => [(name, value)]
  | e :: sp' =>
      if named name e then (name, value) :: usp_delete name sp'
      else e :: usp_set name value sp'
  end.

(* ================================================================== *)
(** ** The filter snapshot derived from the URL (App.js 374-386) *)

Record Filters : Type := mkFilters {
  search : jsstring;
  status : jsstring;
  priority : jsstring;
  tags : jsstring;
  due_date_start : jsstring;
  due_date_end : jsstring;
  assigned_to : jsstring;
  sort_by : jsstring;
  sort_order : jsstring
}.

Record FilterSet : Type := mkFilterSet {
  page : number;
  per_page : number;
  filters : Filters
}.

Definition parse_page (searchParams : URLSearchParams) : number :=
  parseInt (or_else (usp_get (lit "page") searchParams) (lit "1")).

Definition parse_per_page (searchParams : URLSearchParams) : number :=
  parseInt (or_else (usp_get (lit "per_page") searchParams) (lit "10")).

Definition parse_filters (searchParams : URLSearchParams) : Filters :=
  {| search := or_else (usp_get (lit "search") searchParams) (lit "");
     status := or_else (usp_get (lit "status") searchParams) (lit "");
     priority := or_else (usp_get (lit "priority") searchParams) (lit "");
     tags := or_else (usp_get (lit "tags") searchParams) (lit "");
     due_date_start := or_else (usp_get (lit "due_date_start") searchParams) (lit "");
     due_date_end := or_else (usp_get (lit "due_date_end") searchParams) (lit "");
     assigned_to := or_else (usp_get (lit "assigned_to") searchParams) (lit "");
     sort_by := or_else (usp_get (lit "sort_by") searchParams) (lit "created_at");
     sort_order := or_else (usp_get (lit "sort_order") searchParams) (lit "desc") |}.

Definition parse (searchParams : URLSearchParams) : FilterSet :=
  {| page := parse_page searchParams;
     per_page := parse_per_page searchParams;
     filters := parse_filters searchParams |}.

(* ================================================================== *)
(** ** Writers of the URL (App.js 483-496 and 909-929) *)

(** The test [value && value !== 'all' && value !== 'unassigned']. *)
Definition stored (value : jsstring) : bool :=
  truthy value && negb (str_eqb value (lit "all"))
  && negb (str_eqb value (lit "unassigned")).

Definition handleFilterChange (key value : jsstring)
    (searchParams : URLSearchParams) : URLSearchParams :=
  let newParams := searchParams in
  let newParams :=
    if stored value then usp_set key value newParams
    else usp_delete key newParams in
  usp_set (lit "page") (lit "1") newParams.

Definition clearFilters : URLSearchParams :=
  [ (lit "page", lit "1"); (lit "per_page", lit "10");
    (lit "sort_by", lit "created_at"); (lit "sort_order", lit "desc") ].

(** The Previous and Next buttons. *)
Definition previous_onClick (page : number)
    (searchParams : URLSearchParams) : URLSearchParams :=
  usp_set (lit "page") (toString (Math_max (Num 1) (js_sub page (Num 1))))
    searchParams.

Definition previous_disabled (page : number) : bool :=
  strict_eq page (Num 1).

Definition next_onClick (page total_pages : number)
    (searchParams : URLSearchParams) : URLSearchParams :=
  usp_set (lit "page") (toString (Math_min total_pages (js_add page (Num 1))))
    searchParams.

Definition next_disabled (page total_pages : number) : bool :=
  strict_eq page total_pages.

(* ================================================================== *)
(** ** Form validation (App.js 396-426) *)

(** A call [t(key, options)] of the translation function; the model
    keeps the request, the translated text lives in the locale files. *)
Module i18n.
Inductive Message : Type :=
| t (key : string) (options : list (string * Z)).
End i18n.

(** A [Date] object: its time value in milliseconds since the epoch,
    or an invalid date. *)
Inductive Date : Type :=
| Time (ms : Z)
| InvalidDate.

Definition msPerDay : Z := 86400000.

(** [a < b] on dates compares time values; an invalid date has time
    value [NaN] and compares false. *)
Definition date_lt (a b : Date) : bool :=
  match a, b with
  | Time x, Time y => (x <? y)%Z
  | _, _ => false
  end.

Module taskForm.
Record t : Type := mk {
  title : jsstring;
  description : jsstring;
  status : jsstring;
  priority : jsstring;
  due_date : option Date;
  tags : jsstring;
  assigned_to : jsstring
}.
End taskForm.

Module formErrors.
Record t : Type := mk {
  title : option i18n.Message;
  due_date : option i18n.Message
}.

(** [Object.keys(formErrors).length]. *)
Definition keys_length (e : t) : nat :=
  (match title e with Some _ => 1 | None => 0 end)
  + (match due_date e with Some _ => 1 | None => 0 end).
End formErrors.

Definition titleLengthError : i18n.Message :=
  i18n.t "dashboard.titleLengthError" [("min"%string, 3%Z); ("max"%string, 120%Z)].

Definition titleRequiredError : i18n.Message :=
  i18n.t "dashboard.titleRequiredError" [].

Definition dueDateInPastError : i18n.Message :=
  i18n.t "dashboard.dueDateInPastError" [].

(** The time zone of the browser, as ECMAScript sees it: the offset of
    local time from UTC in force at a time value ([LocalTime(t)] is
    [t + offsetAt t]), and the time value of a local wall-clock time
    ([UTC(l)]). Both are in milliseconds; daylight-saving transitions
    make [offsetAt] vary. *)
Record TimeZone : Type := mkTimeZone {
  offsetAt : Z -> Z;
  utcOf : Z -> Z
}.

(** A zone without transitions. *)
Definition fixedZone (offset : Z) : TimeZone :=
  {| offsetAt := fun _ => offset; utcOf := fun l => (l - offset)%Z |}.

(** The largest time value of a [Date], and [TimeClip]: a time value
    out of range makes the date invalid. *)
Definition maxTime : Z := 8640000000000000.

Definition TimeClip (t : Z) : Date :=
  if (Z.abs t <=? maxTime)%Z then Time t else InvalidDate.

Section Validation.
Variable zone : TimeZone.

(** The calendar day, in local time, of a time value. *)
Definition localDay (ms : Z) : Z := ((ms + offsetAt zone ms) / msPerDay)%Z.

(** [d.setHours(0, 0, 0, 0)]: the time value of midnight, local time,
    of the same local day
    ([TimeClip(UTC(MakeDate(Day(LocalTime(t)), 0)))]). *)
Definition setHours0 (d : Date) : Date :=
  match d with
  | Time ms => TimeClip (utcOf zone (msPerDay * localDay ms))
  | InvalidDate => InvalidDate
  end.

(** The validation effect; [now] is the time value of [new Date()]. *)
Definition validate (now : Z) (form : taskForm.t) : formErrors.t :=
  let len := Z.of_nat (List.length (trim (taskForm.title form))) in
  {| formErrors.title :=
       if ((len >? 0) && ((len <? 3) || (len >? 120)))%Z then
         Some titleLengthError
       else if (len =? 0)%Z then
         Some titleRequiredError
       else None;
     formErrors.due_date :=
       match taskForm.due_date form with
       | Some due =>
           let today := setHours0 (Time now) in
           let selectedDate := setHours0 due in
           if date_lt selectedDate today then
             Some dueDateInPastError
           else None
       | None => None
       end |}.
End Validation.

(* ================================================================== *)
(** ** The Dashboard state, [loadTasks] and the debounce effect
       (App.js 368-388 and 428-457) *)

Record Task : Type := mkTask {
  task_id : Z;
  task_title : jsstring;
  task_status : jsstring;
  task_priority : jsstring
}.

Module pagination.
Record t : Type := mk {
  page : number;
  per_page : number;
  total : number;
  total_pages : number
}.
End pagination.

Record Toast : Type := mkToast {
  toast_title : i18n.Message;
  toast_description : i18n.Message;
  toast_variant : string
}.

(** Body of a fulfilled [GET /tasks] response. *)
Record TasksData : Type := mkTasksData {
  data_tasks : list Task;
  data_pagination : pagination.t
}.

(** How the promise of [axios.get] settles. *)
Inductive Settled : Type :=
| Fulfilled (data : TasksData)
| Rejected.

(** A pending [setTimeout]: the callback of the debounce effect calls
    the [loadTasks] of its render, which closes over the [searchParams]
    of that render. *)
Record Timer : Type := mkTimer {
  timer_id : nat;
  deadline : Z;
  closure_params : URLSearchParams
}.

(** A [GET /tasks?...] request. *)
Record Request : Type := mkRequest {
  request_id : nat;
  sent_at : Z;
  request_params : URLSearchParams
}.

(** The state of the mounted view: the URL, the four pieces of React
    state that [loadTasks] writes, the toasts shown so far, and the
    environment (clock, pending timers, the timer handle held by the
    cleanup of the debounce effect, pending requests, and the log of
    all requests sent). *)
Record Dashboard : Type := mkDashboard {
  searchParams : URLSearchParams;
  tasks : list Task;
  pagination_state : pagination.t;
  loading : bool;
  toasts : list Toast;
  clock : Z;
  timers : list Timer;
  next_timer : nat;
  handler : option nat;
  in_flight : list Request;
  sent : list Request
}.

Definition URLSearchParams_eq_dec (a b : URLSearchParams) : {a = b} + {a <> b}.
Proof.
  apply list_eq_dec. intros [k v] [k' v'].
  destruct (list_eq_dec N.eq_dec k k'); [|right; congruence].
  destruct (list_eq_dec N.eq_dec v v'); [left|right]; congruence.
Defined.

Definition setTasks (v : list Task) (d : Dashboard) : Dashboard :=
  mkDashboard (searchParams d) v (pagination_state d) (loading d) (toasts d)
    (clock d) (timers d) (next_timer d) (handler d) (in_flight d) (sent d).

Definition setPagination (v : pagination.t) (d : Dashboard) : Dashboard :=
  mkDashboard (searchParams d) (tasks d) v (loading d) (toasts d)
    (clock d) (timers d) (next_timer d) (handler d) (in_flight d) (sent d).

Definition setLoading (v : bool) (d : Dashboard) : Dashboard :=
  mkDashboard (searchParams d) (tasks d) (pagination_state d) v (toasts d)
    (clock d) (timers d) (next_timer d) (handler d) (in_flight d) (sent d).

Definition toast (v : Toast) (d : Dashboard) : Dashboard :=
  mkDashboard (searchParams d) (tasks d) (pagination_state d) (loading d)
    (toasts d ++ [v])
    (clock d) (timers d) (next_timer d) (handler d) (in_flight d) (sent d).

Definition setSearchParams (v : URLSearchParams) (d : Dashboard) : Dashboard :=
  mkDashboard v (tasks d) (pagination_state d) (loading d) (toasts d)
    (clock d) (timers d) (next_timer d) (handler d) (in_flight d) (sent d).

Definition set_clock (v : Z) (d : Dashboard) : Dashboard :=
  mkDashboard (searchParams d) (tasks d) (pagination_state d) (loading d)
    (toasts d) v (timers d) (next_timer d) (handler d) (in_flight d) (sent d).

Definition set_timers (v : list Timer) (d : Dashboard) : Dashboard :=
  mkDashboard (searchParams d) (tasks d) (pagination_state d) (loading d)
    (toasts d) (clock d) v (next_timer d) (handler d) (in_flight d) (sent d).

Definition set_in_flight (v : list Request) (d : Dashboard) : Dashboard :=
  mkDashboard (searchParams d) (tasks d) (pagination_state d) (loading d)
    (toasts d) (clock d) (timers d) (next_timer d) (handler d) v (sent d).

(** [axios.get]: the request leaves and its promise is pending. *)
Definition axios_get (params : URLSearchParams) (d : Dashboard) : Dashboard :=
  let r := mkRequest (List.length (sent d)) (clock d) params in
  mkDashboard (searchParams d) (tasks d) (pagination_state d) (loading d)
    (toasts d) (clock d) (timers d) (next_timer d) (handler d)
    (in_flight d ++ [r]) (sent d ++ [r]).

(** [loadTasks] up to its [await]; [params] is the [searchParams] the
    callback was created with. *)
Definition loadTasks (params : URLSearchParams) (d : Dashboard) : Dashboard :=
  axios_get params (setLoading true d).

Definition errorLoadingTasks : Toast :=
  mkToast (i18n.t "dashboard.error" []) (i18n.t "dashboard.errorLoadingTasks" [])
    "destructive".

(** [loadTasks] from its [await] on: the rest of the [try] block, the
    [catch] block, and [finally]. *)
Definition loadTasks_resume (response : Settled) (d : Dashboard) : Dashboard :=
  let d :=
    match response with
    | Fulfilled data => setPagination (data_pagination data) (setTasks (data_tasks data) d)
    | Rejected => toast errorLoadingTasks d
    end in
  setLoading false d.

Definition clearTimeout (id : nat) (d : Dashboard) : Dashboard :=
  set_timers (filter (fun tm => negb (timer_id tm =? id)) (timers d)) d.

(** [setTimeout(() => loadTasks(), delay)]; the new handle is
    [next_timer d]. *)
Definition setTimeout (params : URLSearchParams) (delay : Z) (d : Dashboard) : Dashboard :=
  mkDashboard (searchParams d) (tasks d) (pagination_state d) (loading d)
    (toasts d) (clock d)
    (timers d ++ [mkTimer (next_timer d) (clock d + delay) params])
    (S (next_timer d)) (handler d) (in_flight d) (sent d).

Definition set_handler (v : option nat) (d : Dashboard) : Dashboard :=
  mkDashboard (searchParams d) (tasks d) (pagination_state d) (loading d)
    (toasts d) (clock d) (timers d) (next_timer d) v (in_flight d) (sent d).

(** The debounce effect when its dependency [loadTasks] has changed:
    the cleanup of the previous run, then the body. *)
Definition debounce_effect (d : Dashboard) : Dashboard :=
  let d :=
    match handler d with
    | Some h => clearTimeout h d
    | None => d
    end in
  let h := next_timer d in
  set_handler (Some h) (setTimeout (searchParams d) 500 d).

(** First render of the Dashboard at time [now] with the URL [sp]. *)
Definition mount (now : Z) (sp : URLSearchParams) : Dashboard :=
  debounce_effect
    (mkDashboard sp []
       (pagination.mk (parse_page sp) (parse_per_page sp) (Num 0) (Num 0))
       true [] now [] 0 None [] []).

(** A timer fires: its callback runs, not before its deadline. *)
Definition fire (tm : Timer) (d : Dashboard) : Dashboard :=
  loadTasks (closure_params tm) (set_clock (Z.max (clock d) (deadline tm)) d).

Definition due (time : Z) (tm : Timer) : bool := (deadline tm <=? time)%Z.

(** [ms] milliseconds pass: the timers that come due fire in the order
    they were set. *)
Definition elapse (ms : Z) (d : Dashboard) : Dashboard :=
  let time := (clock d + ms)%Z in
  let ready := filter (due time) (timers d) in
  let waiting := filter (fun tm => negb (due time tm)) (timers d) in
  set_clock time (fold_left (fun s tm => fire tm s) ready (set_timers waiting d)).

(** The URL becomes [sp]. [useSearchParams] hands out a new object, so
    [loadTasks] is a new callback and the debounce effect re-runs, only
    when the query string differs from the current one. *)
Definition navigate (sp : URLSearchParams) (d : Dashboard) : Dashboard :=
  if URLSearchParams_eq_dec sp (searchParams d) then d
  else debounce_effect (setSearchParams sp d).

(** Whether a request with this id is pending. *)
Definition has_request (id : nat) (l : list Request) : bool :=
  existsb (fun r => request_id r =? id) l.

(** The response of request [id] arrives: the [loadTasks] call that
    awaits it resumes. *)
Definition settle (id : nat) (response : Settled) (d : Dashboard) : Dashboard :=
  if has_request id (in_flight d) then
    loadTasks_resume response
      (set_in_flight (filter (fun r => negb (request_id r =? id)) (in_flight d)) d)
  else d.

Inductive Event : Type :=
| FilterChange (key value : jsstring)
| ClearFilters
| ClickPrevious
| ClickNext
| Elapse (ms : Z)
| Settle (id : nat) (response : Settled).

Definition step (d : Dashboard) (e : Event) : Dashboard :=
  match e with
  | FilterChange key value =>
      navigate (handleFilterChange key value (searchParams d)) d
  | ClearFilters => navigate clearFilters d
  | ClickPrevious =>
      let page := parse_page (searchParams d) in
      if previous_disabled page then d
      else navigate (previous_onClick page (searchParams d)) d
  | ClickNext =>
      let page := parse_page (searchParams d) in
      let total_pages := pagination.total_pages (pagination_state d) in
      if next_disabled page total_pages then d
      else navigate (next_onClick page total_pages (searchParams d)) d
  | Elapse ms => elapse ms d
  | Settle id response => settle id response d
  end.

Definition run (d : Dashboard) (events : list Event) : Dashboard :=
  fold_left step events d.

(** Whether the pagination block is rendered: the list branch of the
    view is taken and [pagination.total_pages > 1]. *)
Definition pagination_rendered (d : Dashboard) : bool :=
  negb (loading d) && negb (List.length (tasks d) =? 0)
  && js_gt (pagination.total_pages (pagination_state d)) (Num 1).

(* ================================================================== *)
(** ** The round trip of a snapshot through the URL *)

(** The URL that the filter panel produces for the nine filters: from
    the URL [sp], one [handleFilterChange] per filter. *)
Definition write_filters (f : Filters) (sp : URLSearchParams) : URLSearchParams :=
  let sp := handleFilterChange (lit "search") (search f) sp in
  let sp := handleFilterChange (lit "status") (status f) sp in
  let sp := handleFilterChange (lit "priority") (priority f) sp in
  let sp := handleFilterChange (lit "tags") (tags f) sp in
  let sp := handleFilterChange (lit "due_date_start") (due_date_start f) sp in
  let sp := handleFilterChange (lit "due_date_end") (due_date_end f) sp in
  let sp := handleFilterChange (lit "assigned_to") (assigned_to f) sp in
  let sp := handleFilterChange (lit "sort_by") (sort_by f) sp in
  handleFilterChange (lit "sort_order") (sort_order f) sp.

(** The URL on which the writers of the view leave a whole snapshot,
    starting from the URL [searchParams]: one [handleFilterChange] per
    filter, then [page] written the way the pagination buttons write it
    ([newParams.set('page', n.toString())]); [page] comes last because
    [handleFilterChange] resets it. No writer of the view takes a
    [per_page]: the key stays as [searchParams] has it. *)
Definition serialize (searchParams : URLSearchParams) (F : FilterSet)
    : URLSearchParams :=
  let sp := write_filters (filters F) searchParams in
  usp_set (lit "page") (toString (page F)) sp.

(** The no-op values of the specification: the empty string, ["all"]
    and ["unassigned"]. *)
Definition noop (v : jsstring) : bool :=
  str_eqb v (lit "") || str_eqb v (lit "all") || str_eqb v (lit "unassigned").




(** The keys the view reads from the URL. *)
Definition known_keys : list jsstring :=
  [ lit "page"; lit "per_page"; lit "search"; lit "status"; lit "priority";
    lit "tags"; lit "due_date_start"; lit "due_date_end"; lit "assigned_to";
    lit "sort_by"; lit "sort_order" ].

Definition known (key : jsstring) : bool :=
  existsb (str_eqb key) known_keys.

(* ================================================================== *)
(** ** The task modal: [openTaskModal], [handleTaskSubmit], [deleteTask]
       (App.js 391-404 and 498-599) *)

(** A task as [GET /tasks] returns it; a field that may be [null] is
    an option. *)
Module task.
Record t : Type := mk {
  id : Z;
  title : jsstring;
  description : option jsstring;
  status : jsstring;
  priority : jsstring;
  due_date : option jsstring;
  tags : option jsstring;
  assigned_to : option jsstring
}.
End task.

(** The body of [POST /tasks] and [PUT /tasks/:id]. *)
Module taskData.
Record t : Type := mk {
  title : jsstring;
  description : jsstring;
  status : jsstring;
  priority : jsstring;
  due_date : option jsstring;
  tags : jsstring;
  assigned_to : jsstring
}.
End taskData.

(** The text of a toast shown by the modal handlers: a translation
    request, or a string taken as it is from the server. *)
Inductive Text : Type :=
| Translated (m : i18n.Message)
| Verbatim (s : jsstring).

Record Notice : Type := mkNotice {
  notice_title : Text;
  notice_description : Text;
  notice_variant : option string
}.

Inductive AxiosCall : Type :=
| axios_put (id : Z) (body : taskData.t)
| axios_post (body : taskData.t)
| axios_delete (id : Z).

(** The calls a handler makes once its request has settled. *)
Inductive Reload : Type :=
| call_loadTasks
| call_loadStatusCounts.

(** How a mutation settles: fulfilled, or rejected with
    [error.response?.data?.detail] ([None] when it is undefined). *)
Inductive MutationSettled : Type :=
| MutationFulfilled
| MutationRejected (detail : option jsstring).

Record Modal : Type := mkModal {
  showTaskModal : bool;
  editingTask : option task.t;
  taskForm_state : taskForm.t;
  formErrors_state : formErrors.t
}.

(** The state of the modal when the view mounts. *)
Definition initial_modal : Modal :=
  mkModal false None
    (taskForm.mk [] [] (lit "todo") (lit "med") None [] (lit "unassigned"))
    (formErrors.mk None None).

(** What [handleTaskSubmit] does before its first [await]. *)
Inductive Submitted : Type :=
| Refused (n : Notice)
| Threw (n : Notice)
| Awaiting (call : AxiosCall).

Definition invalidForm : Notice :=
  mkNotice (Translated (i18n.t "dashboard.invalidForm" []))
    (Translated (i18n.t "dashboard.fixErrors" [])) (Some "destructive"%string).

Definition errorSavingTask : Text :=
  Translated (i18n.t "dashboard.errorSavingTask" []).

(** [detail || t('dashboard.errorSavingTask')]. *)
Definition detail_or_fallback (detail : option jsstring) : Text :=
  match detail with
  | Some s => if truthy s then Verbatim s else errorSavingTask
  | None => errorSavingTask
  end.

Definition errorSaving (detail : option jsstring) : Notice :=
  mkNotice (Translated (i18n.t "dashboard.error" []))
    (detail_or_fallback detail) (Some "destructive"%string).

Definition taskUpdated : Notice :=
  mkNotice (Translated (i18n.t "dashboard.taskUpdated" []))
    (Translated (i18n.t "dashboard.taskUpdatedMessage" [])) None.

Definition taskCreated : Notice :=
  mkNotice (Translated (i18n.t "dashboard.taskCreated" []))
    (Translated (i18n.t "dashboard.taskCreatedMessage" [])) None.

Definition taskDeleted : Notice :=
  mkNotice (Translated (i18n.t "dashboard.taskDeleted" []))
    (Translated (i18n.t "dashboard.taskDeletedMessage" [])) None.

Definition errorDeletingTask : Notice :=
  mkNotice (Translated (i18n.t "dashboard.error" []))
    (Translated (i18n.t "dashboard.errorDeletingTask" []))
    (Some "destructive"%string).

Section TaskModal.
Variable zone : TimeZone.

(** [new Date(s)] for a date string of the server. *)
Variable newDate : jsstring -> Date.

(** [format(date, "yyyy-MM-dd'T'HH:mm:ss.SSS'Z'")] of date-fns; [None]
    when it throws. *)
Variable format : Date -> option jsstring.

Definition openTaskModal (task : option task.t) (m : Modal) : Modal :=
  match task with
  | Some task =>
      mkModal true (Some task)
        (taskForm.mk (task.title task)
           (or_else (task.description task) (lit ""))
           (task.status task)
           (task.priority task)
           (match task.due_date task with
            | Some s => if truthy s then Some (newDate s) else None
            | None => None
            end)
           (or_else (task.tags task) (lit ""))
           (or_else (task.assigned_to task) (lit "unassigned")))
        (formErrors_state m)
  | None =>
      mkModal true None
        (taskForm.mk [] [] (lit "todo") (lit "med") None [] (lit "unassigned"))
        (formErrors_state m)
  end.

(** [setTaskForm(prev => ...)] from one of the inputs of the form. *)
Definition setTaskForm (f : taskForm.t -> taskForm.t) (m : Modal) : Modal :=
  mkModal (showTaskModal m) (editingTask m) (f (taskForm_state m))
    (formErrors_state m).

Definition setShowTaskModal (v : bool) (m : Modal) : Modal :=
  mkModal v (editingTask m) (taskForm_state m) (formErrors_state m).

(** The validation effect, run at time [now]: [setFormErrors(errors)]. *)
Definition validation_effect (now : Z) (m : Modal) : Modal :=
  mkModal (showTaskModal m) (editingTask m) (taskForm_state m)
    (validate zone now (taskForm_state m)).

(** The object [taskData] built in [handleTaskSubmit]; [None] when
    [format] throws. *)
Definition build_taskData (form : taskForm.t) : option taskData.t :=
  let assigned :=
    if str_eqb (taskForm.assigned_to form) (lit "unassigned") then lit ""
    else taskForm.assigned_to form in
  let body due :=
    taskData.mk (taskForm.title form) (taskForm.description form)
      (taskForm.status form) (taskForm.priority form) due
      (taskForm.tags form) assigned in
  match taskForm.due_date form with
  | Some d =>
      match format d with
      | Some s => Some (body (Some s))
      | None => None
      end
  | None => Some (body None)
  end.

Definition handleTaskSubmit (m : Modal) : Submitted :=
  if 0 <? formErrors.keys_length (formErrors_state m) then Refused invalidForm
  else
    match build_taskData (taskForm_state m) with
    | None => Threw (errorSaving None)
    | Some body =>
        match editingTask m with
        | Some task => Awaiting (axios_put (task.id task) body)
        | None => Awaiting (axios_post body)
        end
    end.

(** [handleTaskSubmit] from its [await] on; [call] is the request it
    made and [m] the state of the modal when the response arrives. *)
Definition handleTaskSubmit_resume (call : AxiosCall) (response : MutationSettled)
    (m : Modal) : Modal * Notice * list Reload :=
  match response with
  | MutationFulfilled =>
      (setShowTaskModal false m,
       match call with axios_put _ _ => taskUpdated | _ => taskCreated end,
       [call_loadTasks; call_loadStatusCounts])
  | MutationRejected detail => (m, errorSaving detail, [])
  end.

(** [deleteTask]: [confirmed] is the answer of [window.confirm]. *)
Definition deleteTask (taskId : Z) (confirmed : bool) : option AxiosCall :=
  if negb confirmed then None else Some (axios_delete taskId).

Definition deleteTask_resume (response : MutationSettled) : Notice * list Reload :=
  match response with
  | MutationFulfilled => (taskDeleted, [call_loadTasks; call_loadStatusCounts])
  | MutationRejected _ => (errorDeletingTask, [])
  end.
End TaskModal.

(* ================================================================== *)
(** ** Status counts and presentation helpers
       (App.js 389, 464-472 and 601-626) *)

Module statusCounts.
Record t : Type := mk {
  todo : number;
  doing : number;
  done : number;
  total : number
}.
End statusCounts.

Definition initial_statusCounts : statusCounts.t :=
  statusCounts.mk (Num 0) (Num 0) (Num 0) (Num 0).

(** Body of a fulfilled [GET /tasks/stats]. *)
Record StatsData : Type := mkStatsData {
  stats_todo : number;
  stats_doing : number;
  stats_done : number
}.

(** [loadStatusCounts] from its [await] on: [None] is a rejected
    request, which is only logged. *)
Definition loadStatusCounts_resume (response : option StatsData)
    (counts : statusCounts.t) : statusCounts.t :=
  match response with
  | Some data =>
      let total :=
        js_add (js_add (stats_todo data) (stats_doing data)) (stats_done data) in
      statusCounts.mk (stats_todo data) (stats_doing data) (stats_done data) total
  | None => counts
  end.

Inductive Icon : Type := Circle | Play | CheckCircle.

Definition getStatusIcon (status : jsstring) : Icon :=
  if str_eqb status (lit "todo") then Circle
  else if str_eqb status (lit "doing") then Play
  else if str_eqb status (lit "done") then CheckCircle
  else Circle.

Definition getPriorityColor (priority : jsstring) : string :=
  if str_eqb priority (lit "high") then "bg-red-500/20 text-red-400 border-red-500/50"
  else if str_eqb priority (lit "med") then
    "bg-yellow-500/20 text-yellow-400 border-yellow-500/50"
  else if str_eqb priority (lit "low") then
    "bg-green-500/20 text-green-400 border-green-500/50"
  else "bg-gray-500/20 text-gray-400 border-gray-500/50".

Definition getStatusColor (status : jsstring) : string :=
  if str_eqb status (lit "todo") then "bg-gray-500/20 text-gray-400 border-gray-500/50"
  else if str_eqb status (lit "doing") then
    "bg-blue-500/20 text-blue-400 border-blue-500/50"
  else if str_eqb status (lit "done") then
    "bg-green-500/20 text-green-400 border-green-500/50"
  else "bg-gray-500/20 text-gray-400 border-gray-500/50".

(** The label of the priority badge in the task list (App.js 826). *)
Definition priority_label (priority : jsstring) : i18n.Message :=
  if str_eqb priority (lit "high") then i18n.t "dashboard.high" []
  else if str_eqb priority (lit "med") then i18n.t "dashboard.medium" []
  else i18n.t "dashboard.low" [].

(* ================================================================== *)
(** ** Tag badges (App.js 886-896) *)

(** [s.split(',')]: the pieces between the commas (code unit 44). *)
Fixpoint split_comma (s : jsstring) : list jsstring :=
  match s with
  | [] => [[]]
  | c :: s' =>
      if (c =? 44)%N then [] :: split_comma s'
      else
        match split_comma s' with
        | piece :: pieces => (c :: piece) :: pieces
        | [] => [[c]]
        end
  end.

(** The badges rendered for [task.tags]: none when the field is empty
    or [null], else one per piece, trimmed. *)
Definition tag_badges (tags : option jsstring) : list jsstring :=
  match tags with
  | Some s => if truthy s then map trim (split_comma s) else []
  | None => []
  end.

(* ================================================================== *)
(** ** Authentication and routes (App.js 14-216, Login.js 24-29) *)

(** [localStorage]: a value or [null] for every key. *)
Definition Storage := jsstring -> option jsstring.

Definition getItem (key : jsstring) (s : Storage) : option jsstring := s key.

Definition setItem (key value : jsstring) (s : Storage) : Storage :=
  fun k => if str_eqb k key then Some value else s k.

Definition removeItem (key : jsstring) (s : Storage) : Storage :=
  fun k => if str_eqb k key then None else s k.

(** The user object of the login response. *)
Module user.
Record t : Type := mk {
  name : jsstring;
  email : jsstring;
  role : jsstring
}.
End user.

(** The toasts of [AuthProvider], by kind. *)
Inductive AuthToast : Type :=
| WelcomeToast (name : jsstring)
| AuthErrorToast (message : jsstring)
| LoggedOutToast.

(** ['Error al iniciar sesión']. *)
Definition login_fallback : jsstring :=
  lit "Error al iniciar sesi" ++ [243%N] ++ lit "n".

Record Auth : Type := mkAuth {
  user_state : option user.t;
  auth_loading : bool;
  localStorage : Storage;
  location_href : option jsstring;
  auth_toasts : list AuthToast
}.

(** Truthiness of a string or [null]. *)
Definition present (x : option jsstring) : bool :=
  match x with
  | Some s => truthy s
  | None => false
  end.

(** The request interceptor: the [Authorization] header it sets, if
    any. *)
Definition request_interceptor (s : Storage) : option jsstring :=
  match getItem (lit "token") s with
  | Some token => if truthy token then Some (lit "Bearer " ++ token) else None
  | None => None
  end.

(** The error branch of the response interceptor; [status] is
    [error.response?.status]. The promise is rejected in every case. *)
Definition response_interceptor_error (status : option Z) (a : Auth) : Auth :=
  match status with
  | Some 401%Z =>
      mkAuth (user_state a) (auth_loading a)
        (removeItem (lit "user") (removeItem (lit "token") (localStorage a)))
        (Some (lit "/login")) (auth_toasts a)
  | _ => a
  end.

Section Auth.
(** [JSON.stringify] and [JSON.parse] on user objects; [None] when
    [JSON.parse] throws. *)
Variable JSON_stringify : user.t -> jsstring.
Variable JSON_parse : jsstring -> option user.t.

(** The effect that [AuthProvider] runs when it mounts. *)
Definition AuthProvider_mount (a : Auth) : Auth :=
  let token := getItem (lit "token") (localStorage a) in
  let savedUser := getItem (lit "user") (localStorage a) in
  let a :=
    if present token && present savedUser then
      match JSON_parse (or_else savedUser []) with
      | Some userData =>
          mkAuth (Some userData) (auth_loading a) (localStorage a)
            (location_href a) (auth_toasts a)
      | None =>
          mkAuth (user_state a) (auth_loading a)
            (removeItem (lit "user") (removeItem (lit "token") (localStorage a)))
            (location_href a) (auth_toasts a)
      end
    else a in
  mkAuth (user_state a) false (localStorage a) (location_href a) (auth_toasts a).

(** [login] from its [await] on: the response holds a token and a
    user, or the request was rejected with
    [error.response?.data?.detail]. The boolean is [result.success]. *)
Definition login_resume (response : (jsstring * user.t) + option jsstring)
    (a : Auth) : Auth * bool :=
  match response with
  | inl (token, userData) =>
      (mkAuth (Some userData) (auth_loading a)
         (setItem (lit "user") (JSON_stringify userData)
            (setItem (lit "token") token (localStorage a)))
         (location_href a) (auth_toasts a ++ [WelcomeToast (user.name userData)]),
       true)
  | inr detail =>
      let message := or_else detail login_fallback in
      (mkAuth (user_state a) (auth_loading a) (localStorage a) (location_href a)
         (auth_toasts a ++ [AuthErrorToast message]),
       false)
  end.

Definition logout (a : Auth) : Auth :=
  mkAuth None (auth_loading a)
    (removeItem (lit "user") (removeItem (lit "token") (localStorage a)))
    (location_href a) (auth_toasts a ++ [LoggedOutToast]).
End Auth.

(** The context value: [isAuthenticated] is [!!user], [isAdmin] is
    [user?.role === 'admin']. *)
Definition isAuthenticated (a : Auth) : bool :=
  match user_state a with Some _ => true | None => false end.

Definition isAdmin (a : Auth) : bool :=
  match user_state a with
  | Some u => str_eqb (user.role u) (lit "admin")
  | None => false
  end.

Inductive Page : Type :=
| LoginPage
| RegisterPage
| DashboardPage
| AdminDashboardPage.

Inductive Element : Type :=
| Navigate (to : jsstring)
| Render (page : Page)
| NoMatch.

Definition ProtectedRoute (adminOnly : bool) (children : Page) (a : Auth) : Element :=
  if negb (isAuthenticated a) then Navigate (lit "/login")
  else if adminOnly && negb (isAdmin a) then Navigate (lit "/dashboard")
  else Render children.

(** The element of the route that matches [path] in [App]. Paths are
    compared with the five patterns as written. The router also takes
    a path that differs from a pattern in letter case or by a trailing
    slash; the statements below visit the patterns themselves, which
    are the paths the application navigates to. *)
Definition route (path : jsstring) (a : Auth) : Element :=
  if str_eqb path (lit "/") then Navigate (lit "/dashboard")
  else if str_eqb path (lit "/login") then Render LoginPage
  else if str_eqb path (lit "/register") then Render RegisterPage
  else if str_eqb path (lit "/dashboard") then ProtectedRoute false DashboardPage a
  else if str_eqb path (lit "/admin") then ProtectedRoute true AdminDashboardPage a
  else NoMatch.

(** The effect of [Login] and of [Register]: an authenticated visitor
    is sent to the dashboard. *)
Definition page_effect (page : Page) (a : Auth) : option jsstring :=
  match page with
  | LoginPage | RegisterPage =>
      if isAuthenticated a then Some (lit "/dashboard") else None
  | _ => None
  end.

(** Where a visit of [path] comes to rest: redirects and the effects
    of the pages are followed, at most [fuel] times. [Some None] is a
    path no route matches; [None] is fuel running out. *)
Fixpoint settle_route (fuel : nat) (path : jsstring) (a : Auth) : option (option Page) :=
  match fuel with
  | O => None
  | S fuel =>
      match route path a with
      | Navigate to => settle_route fuel to a
      | Render page =>
          match page_effect page a with
          | Some to => settle_route fuel to a
          | None => Some (Some page)
          end
      | NoMatch => Some None
      end
  end.

(* ================================================================== *)
(** ** Registration form ([Register], components/AdminDashboard.js
       459-556) *)

(** Regular expressions over code units, and [RegExp.prototype.test]
    for a pattern anchored at both ends, computed with derivatives. *)
Inductive regex : Type :=
| Never
| Empty
| Unit (p : N -> bool)
| Cat (r1 r2 : regex)
| Alt (r1 r2 : regex)
| Star (r : regex).

Definition Plus (r : regex) : regex := Cat r (Star r).

Fixpoint nullable (r : regex) : bool :=
  match r with
  | Never => false
  | Empty => true
  | Unit _ => false
  | Cat r1 r2 => nullable r1 && nullable r2
  | Alt r1 r2 => nullable r1 || nullable r2
  | Star _ => true
  end.

Fixpoint deriv (c : N) (r : regex) : regex :=
  match r with
  | Never => Never
  | Empty => Never
  | Unit p => if p c then Empty else Never
  | Cat r1 r2 =>
      if nullable r1 then Alt (Cat (deriv c r1) r2) (deriv c r2)
      else Cat (deriv c r1) r2
  | Alt r1 r2 => Alt (deriv c r1) (deriv c r2)
  | Star r1 => Cat (deriv c r1) (Star r1)
  end.

Fixpoint regex_test (r : regex) (s : jsstring) : bool :=
  match s with
  | [] => nullable r
  | c :: s' => regex_test (deriv c r) s'
  end.

(** The class [[^\s@]]. *)
Definition not_space_nor_at (c : N) : bool :=
  negb (isWhiteSpace c) && negb (c =? 64)%N.

(** [/^[^\s@]+@[^\s@]+\.[^\s@]+$/]. *)
Definition emailPattern : regex :=
  Cat (Plus (Unit not_space_nor_at))
    (Cat (Unit (N.eqb 64))
       (Cat (Plus (Unit not_space_nor_at))
          (Cat (Unit (N.eqb 46)) (Plus (Unit not_space_nor_at))))).

Module formData.
Record t : Type := mk {
  name : jsstring;
  email : jsstring;
  password : jsstring;
  confirmPassword : jsstring
}.
End formData.

Module registerErrors.
Record t : Type := mk {
  name : option i18n.Message;
  email : option i18n.Message;
  password : option i18n.Message;
  confirmPassword : option i18n.Message
}.

Definition count (o : option i18n.Message) : nat :=
  match o with Some _ => 1 | None => 0 end.

(** [Object.keys(errors).length]. *)
Definition keys_length (e : t) : nat :=
  count (name e) + count (email e) + count (password e) + count (confirmPassword e).
End registerErrors.

Definition validateForm (data : formData.t) : registerErrors.t :=
  {| registerErrors.name :=
       if negb (truthy (trim (formData.name data))) then
         Some (i18n.t "register.nameRequired" [])
       else if List.length (trim (formData.name data)) <? 2 then
         Some (i18n.t "register.nameMinLength" [("length"%string, 2%Z)])
       else None;
     registerErrors.email :=
       if negb (truthy (trim (formData.email data))) then
         Some (i18n.t "register.emailRequired" [])
       else if negb (regex_test emailPattern (formData.email data)) then
         Some (i18n.t "register.emailInvalid" [])
       else None;
     registerErrors.password :=
       if negb (truthy (formData.password data)) then
         Some (i18n.t "register.passwordRequired" [])
       else if List.length (formData.password data) <? 8 then
         Some (i18n.t "register.passwordMinLength" [("length"%string, 8%Z)])
       else None;
     registerErrors.confirmPassword :=
       if negb (truthy (formData.confirmPassword data)) then
         Some (i18n.t "register.confirmPasswordRequired" [])
       else if negb (str_eqb (formData.password data)
                       (formData.confirmPassword data)) then
         Some (i18n.t "register.passwordsNoMatch" [])
       else None |}.

(** [handleSubmit] of the registration form up to its [await]: the
    errors it sets, and the arguments of the [register] call it makes,
    if it makes one. *)
Definition register_handleSubmit (data : formData.t)
    : registerErrors.t * option (jsstring * jsstring * jsstring) :=
  let validationErrors := validateForm data in
  if 0 <? registerErrors.keys_length validationErrors then (validationErrors, None)
  else (validationErrors,
        Some (formData.name data, formData.email data, formData.password data)).

(* ================================================================== *)
(** ** Users pagination of the admin panel (components/AdminDashboard.js
       33 and 411-433) *)

(** The updaters passed to [setPagination] by the two buttons. *)
Definition users_previous (prev : pagination.t) : pagination.t :=
  pagination.mk (Math_max (Num 1) (js_sub (pagination.page prev) (Num 1)))
    (pagination.per_page prev) (pagination.total prev) (pagination.total_pages prev).

Definition users_next (prev : pagination.t) : pagination.t :=
  pagination.mk
    (Math_min (pagination.total_pages prev) (js_add (pagination.page prev) (Num 1)))
    (pagination.per_page prev) (pagination.total prev) (pagination.total_pages prev).

Inductive UsersClick : Type := UsersPrevious | UsersNext.

Definition users_click (p : pagination.t) (c : UsersClick) : pagination.t :=
  match c with
  | UsersPrevious => users_previous p
  | UsersNext => users_next p
  end.

(* ================================================================== *)
(** ** Vocabulary of the statements *)

(** A fresh draft of the task form with the given title and due date. *)
Definition draft (title : jsstring) (due_date : option Date) : taskForm.t :=
  taskForm.mk title [] (lit "todo") (lit "med") due_date [] (lit "unassigned").



(** A string with no decimal numeral at its head: it is empty, or its
    first code unit is neither white space nor a digit and, when it is
    a sign, no digit follows it. *)
Definition is_digit (c : N) : bool := ((48 <=? c) && (c <=? 57))%N.

Definition no_numeral (s : jsstring) : bool :=
  match s with
  | [] => true
  | c :: r =>
      negb (isWhiteSpace c) && negb (is_digit c)
      && (if (c =? 45)%N || (c =? 43)%N then
            match r with
            | [] => true
            | d :: _ => negb (is_digit d)
            end
          else true)
  end.

(** The local midnights that begin the days of two instants come in
    the order of those days. *)
Definition midnights_ordered (zone : TimeZone) : Prop :=
  forall t1 t2 : Z,
    (localDay zone t1 < localDay zone t2)%Z ->
    (utcOf zone (msPerDay * localDay zone t1)
     < utcOf zone (msPerDay * localDay zone t2))%Z.

(** The local midnight that begins the day of a time value is itself a
    time value of a [Date]; only the first day of the range of [Date],
    in the year -271821, can fail this. *)
Definition day_representable (zone : TimeZone) (ms : Z) : Prop :=
  (Z.abs (utcOf zone (msPerDay * localDay zone ms)) <= maxTime)%Z.

(** New York in 2026: UTC-5, and UTC-4 from 2026-03-08T07:00Z to
    2026-11-01T06:00Z. A wall-clock time that the spring transition
    skips, or that the autumn transition repeats, is read with the
    offset in force before the transition. *)
Definition newYork2026 : TimeZone :=
  {| offsetAt := fun t =>
       if ((1772953200000 <=? t) && (t <? 1793512800000))%Z
       then (-14400000)%Z else (-18000000)%Z;
     utcOf := fun l =>
       if (l <? 1772953200000 - 14400000)%Z then (l + 18000000)%Z
       else if (l <? 1793512800000 - 14400000)%Z then (l + 14400000)%Z
       else (l + 18000000)%Z |}.

(** Two response bodies: the unfiltered list and the list filtered by
    status = done. *)
Definition sample_tasks_all : list Task :=
  [ mkTask 1 (lit "write report") (lit "todo") (lit "med");
    mkTask 2 (lit "fix login bug") (lit "done") (lit "high") ].

Definition sample_tasks_done : list Task :=
  [ mkTask 2 (lit "fix login bug") (lit "done") (lit "high") ].

Definition sample_data_all : TasksData :=
  mkTasksData sample_tasks_all (pagination.mk (Num 1) (Num 10) (Num 2) (Num 1)).

Definition sample_data_done : TasksData :=
  mkTasksData sample_tasks_done (pagination.mk (Num 1) (Num 10) (Num 1) (Num 1)).

(** The view opened on page 3, half a second later, when the server
    has answered that there are 5 pages. *)
Definition page_3_of_5 : Dashboard :=
  run (mount 0 [(lit "page", lit "3")])
    [ Elapse 500;
      Settle 0
        (Fulfilled
           (mkTasksData sample_tasks_all
              (pagination.mk (Num 3) (Num 10) (Num 42) (Num 5)))) ].

(** The events by which the user changes the URL. *)
Definition user_change (e : Event) : Prop :=
  match e with
  | FilterChange _ _ | ClearFilters | ClickPrevious | ClickNext => True
  | Elapse _ | Settle _ _ => False
  end.

(** A burst: each event is a user change that alters the query string
    and is followed by fewer than 500 ms of quiet. *)
Fixpoint rapid (d : Dashboard) (burst : list (Event * Z)) : Prop :=
  match burst with
  | [] => True
  | (e, gap) :: rest =>
      user_change e
      /\ searchParams (step d e) <> searchParams d
      /\ (0 <= gap < 500)%Z
      /\ rapid (step (step d e) (Elapse gap)) rest
  end.

Definition events_of (burst : list (Event * Z)) : list Event :=
  flat_map (fun c => [fst c; Elapse (snd c)]) burst.

(** Every pending timer is the one the cleanup of the debounce effect
    holds; this is so from [mount] on. *)
Definition only_handler_pending (d : Dashboard) : Prop :=
  Forall (fun tm => handler d = Some (timer_id tm)) (timers d).

(** What the edit modal sends for the assignee of a task saved as it
    was opened. *)
Definition assignee_sent (assigned_to : option jsstring) : jsstring :=
  match assigned_to with
  | Some a =>
      if str_eqb a (lit "") || str_eqb a (lit "unassigned") then lit "" else a
  | None => lit ""
  end.

(** A string that does not begin with white space. *)
Definition no_leading_space (s : jsstring) : Prop :=
  match s with
  | [] => True
  | c :: _ => isWhiteSpace c = false
  end.

(** The status counts after a sequence of [loadStatusCounts] calls
    have settled, in the order their responses arrived. *)
Definition statusCounts_after (responses : list (option StatsData)) : statusCounts.t :=
  fold_left (fun counts response => loadStatusCounts_resume response counts)
    responses initial_statusCounts.

(** A full page load with the storage [s]: React state starts afresh
    and the mount effect of [AuthProvider] runs. *)
Definition page_load (JSON_parse : jsstring -> option user.t) (s : Storage) : Auth :=
  AuthProvider_mount JSON_parse (mkAuth None true s None []).

(** The paths of the five routes of [App], as the application writes
    them. *)
Definition route_paths : list jsstring :=
  [ lit "/"; lit "/login"; lit "/register"; lit "/dashboard"; lit "/admin" ].

(** The strings a regular expression denotes. *)
Inductive lang : regex -> jsstring -> Prop :=
| lang_empty : lang Empty []
| lang_unit p c : p c = true -> lang (Unit p) [c]
| lang_cat r1 r2 s1 s2 : lang r1 s1 -> lang r2 s2 -> lang (Cat r1 r2) (s1 ++ s2)
| lang_alt_l r1 r2 s : lang r1 s -> lang (Alt r1 r2) s
| lang_alt_r r1 r2 s : lang r2 s -> lang (Alt r1 r2) s
| lang_star_nil r : lang (Star r) []
| lang_star_app r s1 s2 : lang r s1 -> lang (Star r) s2 -> lang (Star r) (s1 ++ s2).

(* ================================================================== *)
(** * Properties *)

(** ** Strings and numbers *)

Lemma str_eqb_eq a b : str_eqb a b = true <-> a = b.
Proof. unfold str_eqb. destruct (list_eq_dec N.eq_dec a b); split; congruence. Qed.

Lemma str_eqb_refl a : str_eqb a a = true.
Proof. now apply str_eqb_eq. Qed.

Lemma str_eqb_neq a b : str_eqb a b = false <-> a <> b.
Proof. unfold str_eqb. destruct (list_eq_dec N.eq_dec a b); split; congruence. Qed.

Lemma str_eqb_sym a b : str_eqb a b = str_eqb b a.
Proof.
  destruct (str_eqb b a) eqn:E.
  - apply str_eqb_eq in E. subst. apply str_eqb_refl.
  - apply str_eqb_neq in E. apply str_eqb_neq. congruence.
Qed.

Lemma stored_noop v : stored v = negb (noop v).
Proof.
  unfold stored, noop. destruct v as [|c v]; [reflexivity|].
  simpl truthy. replace (str_eqb (c :: v) (lit "")) with false.
  - simpl. now rewrite negb_orb.
  - symmetry. apply str_eqb_neq. discriminate.
Qed.

(** The digits that [toString] writes are read back by the digit scan
    of [parseInt]. *)
Lemma decimal_value_units d acc :
  fold_left (fun acc d => 10 * acc + d)%N (digits_prefix (uint_units d)) acc =
  match acc with
  | N0 => Pos.of_uint d
  | Npos a => Npos (Pos.of_uint_acc d a)
  end.
Proof.
  revert acc.
  induction d; intros acc; simpl uint_units;
    [ destruct acc; reflexivity
    | simpl digits_prefix; simpl fold_left; rewrite IHd;
      destruct acc; [reflexivity|];
      lazy beta iota delta [N.mul N.add]; cbn [Pos.of_uint_acc];
      do 2 f_equal; lia .. ].
Qed.

Lemma units_head d :
  d <> Decimal.Nil ->
  exists c s, uint_units d = c :: s /\ (48 <= c <= 57)%N.
Proof.
  destruct d; intros H; try congruence; simpl; eexists; eexists;
    (split; [reflexivity | lia]).
Qed.

Lemma digit_not_space c : (48 <= c <= 57)%N -> isWhiteSpace c = false.
Proof.
  intros H. unfold isWhiteSpace.
  repeat match goal with
         | |- context [(?a <=? ?b)%N] => destruct (N.leb_spec a b)
         | |- context [(?a =? ?b)%N] => destruct (N.eqb_spec a b)
         end; try reflexivity; lia.
Qed.

Lemma digits_prefix_head c s :
  (48 <= c <= 57)%N -> digits_prefix (c :: s) = (c - 48)%N :: digits_prefix s.
Proof.
  intros H. simpl. unfold digit_value.
  destruct (N.leb_spec 48 c); [|lia]. destruct (N.leb_spec c 57); [|lia].
  reflexivity.
Qed.

Lemma read_sign_digit c s :
  (48 <= c <= 57)%N -> read_sign (c :: s) = (1%Z, c :: s).
Proof.
  intros H. destruct c as [|p]; [lia|].
  do 6 (destruct p as [p|p|]; try reflexivity); lia.
Qed.

Lemma parseInt_units d :
  d <> Decimal.Nil ->
  parseInt (uint_units d) = Num (Z.of_N (Pos.of_uint d)).
Proof.
  intros Hd. destruct (units_head d Hd) as (c & s & E & Hc).
  unfold parseInt. rewrite E. simpl trimStart.
  rewrite (digit_not_space c Hc), (read_sign_digit c s Hc).
  rewrite (digits_prefix_head c s Hc).
  rewrite <- (digits_prefix_head c s Hc), <- E.
  f_equal. rewrite Z.mul_1_l. f_equal.
  unfold decimal_value. apply (decimal_value_units d 0).
Qed.

Lemma parseInt_minus_units d :
  d <> Decimal.Nil ->
  parseInt (45%N :: uint_units d) = Num (- Z.of_N (Pos.of_uint d)).
Proof.
  intros Hd. destruct (units_head d Hd) as (c & s & E & Hc).
  unfold parseInt. simpl trimStart. simpl read_sign.
  rewrite E, (digits_prefix_head c s Hc).
  rewrite <- (digits_prefix_head c s Hc), <- E.
  f_equal. unfold decimal_value. rewrite (decimal_value_units d 0). lia.
Qed.

(** [parseInt(n.toString(), 10)] is [n]. *)
Lemma parseInt_toString n : parseInt (toString n) = n.
Proof.
  destruct n as [z|]; [|reflexivity].
  destruct z as [|p|p]; [reflexivity| |]; unfold toString, Z.to_int.
  - rewrite parseInt_units by apply DecimalPos.Unsigned.to_uint_nonnil.
    now rewrite DecimalPos.Unsigned.of_to.
  - rewrite parseInt_minus_units by apply DecimalPos.Unsigned.to_uint_nonnil.
    now rewrite DecimalPos.Unsigned.of_to.
Qed.

Lemma toString_truthy n : truthy (toString n) = true.
Proof.
  destruct n as [z|]; [|reflexivity].
  unfold toString. destruct (Z.to_int z) as [d|d] eqn:E; [|reflexivity].
  assert (Hd : d <> Decimal.Nil).
  { destruct z; simpl in E; inversion E; subst;
      [discriminate | apply DecimalPos.Unsigned.to_uint_nonnil]. }
  destruct (units_head d Hd) as (c & s & -> & _). reflexivity.
Qed.

(** ** URLSearchParams *)

Lemma usp_get_delete k k' sp :
  usp_get k (usp_delete k' sp) = if str_eqb k k' then None else usp_get k sp.
Proof.
  induction sp as [|[n v] sp IH]; simpl.
  - now destruct (str_eqb k k').
  - unfold named; simpl fst; simpl snd. fold (named k').
    change (filter (fun e => negb (named k' e)) sp) with (usp_delete k' sp).
    destruct (str_eqb n k') eqn:E1; simpl.
    + apply str_eqb_eq in E1. subst n. rewrite IH.
      rewrite (str_eqb_sym k' k). now destruct (str_eqb k k').
    + unfold named; simpl fst; simpl snd. fold (named k). rewrite IH.
      destruct (str_eqb n k) eqn:E2; [|reflexivity].
      apply str_eqb_eq in E2. subst n. now rewrite E1.
Qed.

Lemma usp_get_set k k' v sp :
  usp_get k (usp_set k' v sp) = if str_eqb k k' then Some v else usp_get k sp.
Proof.
  induction sp as [|[n w] sp IH]; simpl.
  - unfold named; simpl fst. rewrite (str_eqb_sym k' k).
    now destruct (str_eqb k k').
  - unfold named; simpl fst; simpl snd. fold (named k) (named k').
    destruct (str_eqb n k') eqn:E1; simpl.
    + apply str_eqb_eq in E1. subst n.
      unfold named; simpl fst; simpl snd. fold (named k). rewrite (str_eqb_sym k' k).
      destruct (str_eqb k k') eqn:E3; [reflexivity|].
      now rewrite usp_get_delete, E3.
    + unfold named; simpl fst; simpl snd. fold (named k). rewrite IH.
      destruct (str_eqb n k) eqn:E2; [|reflexivity].
      apply str_eqb_eq in E2. subst n. now rewrite E1.
Qed.

Lemma usp_has_get k sp :
  usp_has k sp = match usp_get k sp with Some _ => true | None => false end.
Proof.
  induction sp as [|e sp IH]; simpl; [reflexivity|].
  destruct (named k e); simpl; [reflexivity | exact IH].
Qed.

Lemma usp_get_app_other k n v sp1 sp2 :
  k <> n -> usp_get k (sp1 ++ (n, v) :: sp2) = usp_get k (sp1 ++ sp2).
Proof.
  intros H. induction sp1 as [|e sp1 IH]; simpl.
  - unfold named; simpl fst.
    replace (str_eqb n k) with false; [reflexivity|].
    symmetry. apply str_eqb_neq. congruence.
  - now rewrite IH.
Qed.

Lemma known_spec k : known k = false -> Forall (fun n => n <> k) known_keys.
Proof.
  unfold known. intros H. apply Forall_forall. intros n Hn ->.
  assert (existsb (str_eqb k) known_keys = true); [|congruence].
  apply existsb_exists. exists k. split; [exact Hn | apply str_eqb_refl].
Qed.

(** Evaluation of comparisons between key literals. *)
Ltac eval_keys :=
  repeat match goal with
         | |- context [str_eqb (lit ?a) (lit ?b)] =>
             let r := eval vm_compute in (str_eqb (lit a) (lit b)) in
             change (str_eqb (lit a) (lit b)) with r
         end;
  cbv iota.

Ltac get_simpl := repeat rewrite ?usp_get_set, ?usp_get_delete; eval_keys.

(** ** The derived snapshot *)

(** After [handleFilterChange], whatever the key and the value, the
    URL reads [page=1]. *)
Lemma handleFilterChange_page key value sp :
  usp_get (lit "page") (handleFilterChange key value sp) = Some (lit "1").
Proof. unfold handleFilterChange. now get_simpl. Qed.

(** What a reader of another key sees after [handleFilterChange]. *)
Lemma handleFilterChange_get k key value sp :
  k <> lit "page" ->
  usp_get k (handleFilterChange key value sp) =
  if str_eqb k key then (if noop value then None else Some value)
  else usp_get k sp.
Proof.
  intros Hk. unfold handleFilterChange.
  rewrite usp_get_set. apply str_eqb_neq in Hk. rewrite Hk.
  rewrite stored_noop.
  destruct (noop value); simpl;
    [rewrite usp_get_delete | rewrite usp_get_set]; reflexivity.
Qed.

Example parse_empty :
  parse [] = {| page := Num 1; per_page := Num 10;
                filters := mkFilters [] [] [] [] [] [] []
                             (lit "created_at") (lit "desc") |}.
Proof. reflexivity. Qed.

Example parse_page_prefix : page (parse [(lit "page", lit " 12px")]) = Num 12.
Proof. reflexivity. Qed.

Example toString_neg : toString (Num (-305)) = lit "-305".
Proof. reflexivity. Qed.

Example set_replaces_first_and_drops_rest :
  usp_set (lit "page") (lit "1")
    [(lit "page", lit "3"); (lit "q", lit "x"); (lit "page", lit "4")]
  = [(lit "page", lit "1"); (lit "q", lit "x")].
Proof. reflexivity. Qed.

(** C5. For every key (so for every key other than [page]), every
    value and every prior URL, hence every prior page, the snapshot
    derived after [handleFilterChange key value] has page 1. *)
Theorem set_resets_page key value searchParams :
  page (parse (handleFilterChange key value searchParams)) = Num 1.
Proof.
  unfold parse, parse_page; simpl page.
  now rewrite handleFilterChange_page.
Qed.

Lemma usp_delete_not_In k v sp : ~ In (k, v) (usp_delete k sp).
Proof.
  unfold usp_delete. intros H. apply filter_In in H. destruct H as [_ H].
  unfold named in H. simpl in H. now rewrite str_eqb_refl in H.
Qed.

(** After [set(k, w)] the only entry called [k] holds [w]. *)
Lemma usp_set_In k w v sp : In (k, v) (usp_set k w sp) -> v = w.
Proof.
  induction sp as [|[n x] sp IH]; simpl.
  - intros [H|[]]. congruence.
  - unfold named; simpl fst. destruct (str_eqb n k) eqn:E; simpl.
    + intros [H|H]; [congruence|]. now apply usp_delete_not_In in H.
    + intros [H|H]; [|now apply IH].
      inversion H; subst. now rewrite str_eqb_refl in E.
Qed.

Lemma usp_set_In_other k w n v sp :
  n <> k -> In (n, v) (usp_set k w sp) -> In (n, v) sp.
Proof.
  intros Hn. induction sp as [|[m x] sp IH]; simpl.
  - intros [H|[]]. congruence.
  - unfold named; simpl fst. destruct (str_eqb m k) eqn:E; simpl.
    + intros [H|H]; [congruence|]. right.
      unfold usp_delete in H. apply filter_In in H. tauto.
    + intros [H|H]; [now left | right; now apply IH].
Qed.

(** C6. [handleFilterChange key v] with [v] a no-op value (the empty
    string, ["all"] or ["unassigned"]) removes the key instead of
    storing the value: for every key other than [page] (the filter
    panel passes [search], [status], [priority], [tags], [assigned_to]
    and [sort_by]; [page] is written by the pagination buttons and
    [clearFilters] only), no entry [key] is left in the URL, whatever
    it held before; and for every key the no-op value is not stored
    under it. *)
Theorem set_noop_removes_key key v searchParams :
  noop v = true ->
  (key <> lit "page" ->
   usp_has key (handleFilterChange key v searchParams) = false
   /\ usp_get key (handleFilterChange key v searchParams) = None)
  /\ ~ In (key, v) (handleFilterChange key v searchParams).
Proof.
  intros Hv. split.
  - intros Hk.
    assert (G : usp_get key (handleFilterChange key v searchParams) = None).
    { rewrite handleFilterChange_get by exact Hk.
      now rewrite str_eqb_refl, Hv. }
    split; [|exact G]. now rewrite usp_has_get, G.
  - unfold handleFilterChange. rewrite stored_noop, Hv. simpl.
    intros Hin. destruct (list_eq_dec N.eq_dec key (lit "page")) as [->|Hk].
    + apply usp_set_In in Hin. subst v. discriminate Hv.
    + apply usp_set_In_other in Hin; [|exact Hk].
      now apply usp_delete_not_In in Hin.
Qed.

Lemma set_noop_removes_key_witness :
  usp_has (lit "status")
    (handleFilterChange (lit "status") (lit "all")
       [(lit "status", lit "done"); (lit "page", lit "3")]) = false.
Proof.
  apply (set_noop_removes_key (lit "status") (lit "all")
           [(lit "status", lit "done"); (lit "page", lit "3")]).
  - reflexivity.
  - discriminate.
Defined.

(** [set('status', 'all')] on a URL that filters by status: the
    serialized entries hold no [status] key. *)
Example set_status_all :
  handleFilterChange (lit "status") (lit "all")
    [(lit "search", lit "bug"); (lit "status", lit "done"); (lit "page", lit "3")]
  = [(lit "search", lit "bug"); (lit "page", lit "1")].
Proof. reflexivity. Qed.

(** ** Tolerance of the parse *)

Lemma parse_ignores_entry k v sp1 sp2 :
  known k = false -> parse (sp1 ++ (k, v) :: sp2) = parse (sp1 ++ sp2).
Proof.
  intros H. apply known_spec in H. unfold known_keys in H.
  repeat match goal with
         | H : Forall _ (_ :: _) |- _ => inversion H; clear H; subst
         end.
  unfold parse, parse_page, parse_per_page, parse_filters.
  now rewrite !usp_get_app_other by assumption.
Qed.

Lemma parse_page_of_toString sp n :
  usp_get (lit "page") sp = Some (toString n) -> parse_page sp = n.
Proof.
  intros H. unfold parse_page. rewrite H. unfold or_else.
  rewrite toString_truthy. apply parseInt_toString.
Qed.

Lemma parse_per_page_of_toString sp n :
  usp_get (lit "per_page") sp = Some (toString n) -> parse_per_page sp = n.
Proof.
  intros H. unfold parse_per_page. rewrite H. unfold or_else.
  rewrite toString_truthy. apply parseInt_toString.
Qed.

(** C4, as stated, fails: a value of [page] or [per_page] that is not
    a number is handed to [parseInt] as it is and the snapshot holds
    [NaN], not the default. *)
Lemma malformed_page_is_NaN :
  page (parse [(lit "page", lit "abc"); (lit "per_page", lit "x1")]) = NaN
  /\ page (parse [(lit "page", lit "abc"); (lit "per_page", lit "x1")]) <> Num 1
  /\ per_page (parse [(lit "page", lit "abc"); (lit "per_page", lit "x1")]) = NaN
  /\ per_page (parse [(lit "page", lit "abc"); (lit "per_page", lit "x1")]) <> Num 10.
Proof. repeat split; try reflexivity; discriminate. Qed.

Lemma trimStart_spaces ws s :
  forallb isWhiteSpace ws = true -> trimStart (ws ++ s) = trimStart s.
Proof.
  induction ws as [|c ws IH]; simpl; [reflexivity|].
  intros H. apply andb_prop in H. destruct H as [-> H]. now apply IH.
Qed.

Lemma read_sign_other c s :
  c <> 45%N -> c <> 43%N -> read_sign (c :: s) = (1%Z, c :: s).
Proof.
  intros H1 H2. destruct c as [|p]; [reflexivity|].
  do 6 (destruct p as [p|p|]; try reflexivity); congruence.
Qed.

Lemma is_digit_value c : is_digit c = false -> digit_value c = None.
Proof. unfold is_digit, digit_value. now intros ->. Qed.

(** A value with no numeral at its head is not a number. *)
Lemma parseInt_no_numeral ws rest :
  forallb isWhiteSpace ws = true ->
  no_numeral rest = true ->
  parseInt (ws ++ rest) = NaN.
Proof.
  intros Hws Hrest. unfold parseInt. rewrite trimStart_spaces by exact Hws.
  destruct rest as [|c r]; [reflexivity|].
  unfold no_numeral in Hrest.
  apply andb_prop in Hrest. destruct Hrest as [Hrest Hsign].
  apply andb_prop in Hrest. destruct Hrest as [Hsp Hd].
  apply negb_true_iff in Hsp. apply negb_true_iff in Hd.
  cbn [trimStart]. rewrite Hsp.
  assert (Hr : (c = 45%N \/ c = 43%N) -> digits_prefix r = []).
  { intros Hc.
    assert (E : ((c =? 45)%N || (c =? 43)%N) = true).
    { destruct Hc as [-> | ->]; reflexivity. }
    rewrite E in Hsign. destruct r as [|d r]; [reflexivity|].
    apply negb_true_iff in Hsign. simpl. now rewrite (is_digit_value d Hsign). }
  destruct (N.eq_dec c 45) as [E45|N45].
  - subst c. cbn [read_sign]. now rewrite Hr by (now left).
  - destruct (N.eq_dec c 43) as [E43|N43].
    + subst c. cbn [read_sign]. now rewrite Hr by (now right).
    + rewrite (read_sign_other c r N45 N43). simpl.
      now rewrite (is_digit_value c Hd).
Qed.

(** C4, amended. [parse] is a total function of the URL; an entry
    whose key the view does not read changes nothing; [page] and
    [per_page] take the defaults 1 and 10 when the key is absent or its
    value is empty; a value that is the decimal numeral of a safe
    integer is read as that integer; a non-empty value that has, after
    its leading white space, no numeral at its head (neither a digit
    nor a sign followed by a digit) is read as [NaN], with no
    fallback. *)
Theorem parse_tolerant :
  (forall sp1 k v sp2,
      known k = false -> parse (sp1 ++ (k, v) :: sp2) = parse (sp1 ++ sp2))
  /\ (forall sp,
         usp_get (lit "page") sp = None \/ usp_get (lit "page") sp = Some [] ->
         page (parse sp) = Num 1)
  /\ (forall sp,
         usp_get (lit "per_page") sp = None
         \/ usp_get (lit "per_page") sp = Some [] ->
         per_page (parse sp) = Num 10)
  /\ (forall sp z,
         isSafeInteger (Num z) = true ->
         usp_get (lit "page") sp = Some (toString (Num z)) ->
         page (parse sp) = Num z)
  /\ (forall sp z,
         isSafeInteger (Num z) = true ->
         usp_get (lit "per_page") sp = Some (toString (Num z)) ->
         per_page (parse sp) = Num z)
  /\ (forall sp ws rest,
         ws ++ rest <> [] ->
         forallb isWhiteSpace ws = true ->
         no_numeral rest = true ->
         (usp_get (lit "page") sp = Some (ws ++ rest) -> page (parse sp) = NaN)
         /\ (usp_get (lit "per_page") sp = Some (ws ++ rest) ->
             per_page (parse sp) = NaN)).
Proof.
  split; [|split; [|split; [|split; [|split]]]].
  - intros. now apply parse_ignores_entry.
  - intros sp [H|H]; simpl; unfold parse_page; now rewrite H.
  - intros sp [H|H]; simpl; unfold parse_per_page; now rewrite H.
  - intros sp z _ H. now apply parse_page_of_toString.
  - intros sp z _ H. now apply parse_per_page_of_toString.
  - intros sp ws rest Hne Hws Hrest.
    assert (T : or_else (Some (ws ++ rest)) (lit "1") = ws ++ rest
                /\ or_else (Some (ws ++ rest)) (lit "10") = ws ++ rest).
    { unfold or_else. destruct (ws ++ rest); [congruence | now split]. }
    destruct T as [T1 T10].
    split; intros H; simpl; unfold parse_page, parse_per_page; rewrite H.
    + rewrite T1. now apply parseInt_no_numeral.
    + rewrite T10. now apply parseInt_no_numeral.
Qed.

Lemma parse_tolerant_witness :
  parse ([(lit "page", lit "2")] ++ (lit "utm_source", lit "mail") :: [])
  = parse ([(lit "page", lit "2")] ++ [])
  /\ page (parse [(lit "status", lit "done")]) = Num 1
  /\ per_page (parse [(lit "per_page", lit "")]) = Num 10
  /\ page (parse [(lit "page", lit "42")]) = Num 42
  /\ per_page (parse [(lit "per_page", lit "25")]) = Num 25
  /\ page (parse [(lit "page", lit " abc")]) = NaN
  /\ per_page (parse [(lit "per_page", lit "-x1")]) = NaN.
Proof.
  destruct parse_tolerant as (H1 & H2 & H3 & H4 & H5 & H6).
  split; [|split; [|split; [|split; [|split; [|split]]]]].
  - apply H1. reflexivity.
  - apply H2. left. reflexivity.
  - apply H3. right. reflexivity.
  - apply (H4 [(lit "page", lit "42")] 42%Z); reflexivity.
  - apply (H5 [(lit "per_page", lit "25")] 25%Z); reflexivity.
  - apply (H6 [(lit "page", lit " abc")] (lit " ") (lit "abc"));
      try reflexivity. discriminate.
  - apply (H6 [(lit "per_page", lit "-x1")] [] (lit "-x1"));
      try reflexivity. discriminate.
Defined.

(** ** Round trip *)





Lemma parse_filters_set_number k v sp :
  k = lit "page" \/ k = lit "per_page" ->
  parse_filters (usp_set k v sp) = parse_filters sp.
Proof.
  intros [-> | ->]; unfold parse_filters; rewrite !usp_get_set; now eval_keys.
Qed.




Example round_trip_example :
  serialize [(lit "per_page", lit "20")]
    {| page := Num 3; per_page := Num 20;
       filters := mkFilters (lit "bug") (lit "all") (lit "high") []
                    [] [] (lit "unassigned") (lit "all") (lit "asc") |}
  = [(lit "per_page", lit "20"); (lit "search", lit "bug");
     (lit "page", lit "3"); (lit "priority", lit "high");
     (lit "sort_order", lit "asc")].
Proof. reflexivity. Qed.

(** ** Form validation *)

(** C7. The validation effect reports a title error exactly when the
    length of the trimmed title is outside [3, 120]: the message is the
    "required" one for length 0 and the "length" one, a different
    message, for the other lengths outside the interval; lengths 3 to
    120 give no title error. *)
Theorem title_validation zone now form :
  let len := Z.of_nat (List.length (trim (taskForm.title form))) in
  let e := formErrors.title (validate zone now form) in
  (e <> None <-> (len < 3 \/ 120 < len)%Z)
  /\ (len = 0%Z <-> e = Some titleRequiredError)
  /\ ((0 < len < 3 \/ 120 < len)%Z <-> e = Some titleLengthError)
  /\ ((3 <= len <= 120)%Z <-> e = None)
  /\ titleRequiredError <> titleLengthError.
Proof.
  intros len e. subst e. unfold validate. cbn [formErrors.title].
  fold len. unfold titleRequiredError, titleLengthError.
  assert (0 <= len)%Z by (unfold len; lia).
  destruct (Z.gtb_spec len 0), (Z.ltb_spec len 3), (Z.gtb_spec len 120),
    (Z.eqb_spec len 0); simpl;
    repeat split; intros; try discriminate; try congruence; try lia.
Qed.

Example title_ab :
  formErrors.title (validate (fixedZone 0) 0 (draft (lit "ab") None))
  = Some titleLengthError.
Proof. reflexivity. Qed.

Example title_abc :
  formErrors.title (validate (fixedZone 0) 0 (draft (lit "abc") None)) = None.
Proof. reflexivity. Qed.

Example title_120 :
  formErrors.title (validate (fixedZone 0) 0 (draft (repeat 97%N 120) None)) = None.
Proof. reflexivity. Qed.

Example title_121 :
  formErrors.title (validate (fixedZone 0) 0 (draft (repeat 97%N 121) None))
  = Some titleLengthError.
Proof. reflexivity. Qed.

Example title_blank :
  formErrors.title (validate (fixedZone 0) 0 (draft (lit "   ") None)) = Some titleRequiredError.
Proof. reflexivity. Qed.

Example title_padded :
  formErrors.title (validate (fixedZone 0) 0 (draft (lit "  ab  ") None)) = Some titleLengthError.
Proof. reflexivity. Qed.

(** A zone whose offsets lie within a window narrower than a day has
    ordered midnights: so have the zones that keep their offset, and
    New York. *)
Lemma midnights_ordered_window zone lo hi :
  (hi - lo < msPerDay)%Z ->
  (forall l, l - hi <= utcOf zone l <= l - lo)%Z ->
  midnights_ordered zone.
Proof.
  intros W B t1 t2 Hd.
  pose proof (B (msPerDay * localDay zone t1)%Z).
  pose proof (B (msPerDay * localDay zone t2)%Z).
  unfold msPerDay in *. lia.
Qed.

Lemma midnights_ordered_fixedZone offset : midnights_ordered (fixedZone offset).
Proof.
  apply (midnights_ordered_window (fixedZone offset) offset offset).
  - unfold msPerDay. lia.
  - intros l. simpl. lia.
Qed.

Lemma midnights_ordered_newYork2026 : midnights_ordered newYork2026.
Proof.
  apply (midnights_ordered_window newYork2026 (-18000000) (-14400000)).
  - unfold msPerDay. lia.
  - intros l. unfold newYork2026. cbn [utcOf].
    repeat match goal with
           | |- context [if ?c then _ else _] => destruct c
           end; lia.
Qed.

(** Midnight comparison is comparison of calendar days. *)
Lemma setHours0_lt zone a b :
  midnights_ordered zone ->
  day_representable zone a ->
  day_representable zone b ->
  date_lt (setHours0 zone (Time a)) (setHours0 zone (Time b))
  = (localDay zone a <? localDay zone b)%Z.
Proof.
  intros M Ra Rb. unfold setHours0, TimeClip.
  unfold day_representable in Ra, Rb.
  destruct (Z.leb_spec (Z.abs (utcOf zone (msPerDay * localDay zone a))) maxTime);
    [|lia].
  destruct (Z.leb_spec (Z.abs (utcOf zone (msPerDay * localDay zone b))) maxTime);
    [|lia].
  unfold date_lt.
  destruct (Z.ltb_spec (utcOf zone (msPerDay * localDay zone a))
              (utcOf zone (msPerDay * localDay zone b))) as [L|L],
    (Z.ltb_spec (localDay zone a) (localDay zone b)) as [D|D];
    try reflexivity; exfalso.
  - destruct (Z.eq_dec (localDay zone a) (localDay zone b)) as [E|E].
    + rewrite E in L. lia.
    + assert (G : (localDay zone b < localDay zone a)%Z) by lia.
      apply M in G. lia.
  - apply M in D. lia.
Qed.

(** C8. In a time zone whose local midnights come in the order of
    their days (daylight-saving time included), and for dates
    whose day begins within the range of [Date], a due-date error is
    reported exactly when a due date is set and its calendar day,
    local time, is strictly before the calendar day of the current
    time; the time of day plays no part. A due date on the current day
    is valid, one on the day before is an error, and no due date is
    always valid. *)
Theorem due_date_validation zone now form :
  midnights_ordered zone ->
  day_representable zone now ->
  (forall ms, taskForm.due_date form = Some (Time ms) ->
              day_representable zone ms) ->
  let e := formErrors.due_date (validate zone now form) in
  (e = Some dueDateInPastError <->
   exists ms, taskForm.due_date form = Some (Time ms)
              /\ (localDay zone ms < localDay zone now)%Z)
  /\ (e = Some dueDateInPastError \/ e = None)
  /\ (forall ms, taskForm.due_date form = Some (Time ms) ->
                 localDay zone ms = localDay zone now -> e = None)
  /\ (forall ms, taskForm.due_date form = Some (Time ms) ->
                 localDay zone ms = (localDay zone now - 1)%Z ->
                 e = Some dueDateInPastError)
  /\ (taskForm.due_date form = None -> e = None).
Proof.
  intros M Rn Rd e. subst e. unfold validate. cbn [formErrors.due_date].
  unfold dueDateInPastError.
  destruct (taskForm.due_date form) as [[ms|]|].
  - rewrite (setHours0_lt zone ms now M (Rd ms eq_refl) Rn).
    destruct (Z.ltb_spec (localDay zone ms) (localDay zone now)).
    + repeat split; intros; try discriminate; auto.
      * exists ms. split; [reflexivity | assumption].
      * match goal with H : Some _ = Some _ |- _ => inversion H; subst end. lia.
    + repeat split; intros; try discriminate; auto.
      * match goal with
        | H : exists _, _ |- _ => destruct H as (ms' & E & Hlt)
        end. inversion E; subst. lia.
      * match goal with H : Some _ = Some _ |- _ => inversion H; subst end. lia.
  - simpl. repeat split; intros; try discriminate; auto.
    match goal with
    | H : exists _, _ |- _ => destruct H as (ms' & E & Hlt)
    end. discriminate E.
  - repeat split; intros; try discriminate; auto.
    match goal with
    | H : exists _, _ |- _ => destruct H as (ms' & E & Hlt)
    end. discriminate E.
Qed.

(** 2026-03-10T15:30 and 2026-03-10T00:00 UTC are the same day; the
    due date 2026-03-09T23:59:59.999 is the day before. *)
Example due_today :
  formErrors.due_date
    (validate (fixedZone 0) 1773156600000
       (draft (lit "abc") (Some (Time 1773100800000))))
  = None.
Proof. reflexivity. Qed.

Example due_yesterday :
  formErrors.due_date
    (validate (fixedZone 0) 1773156600000
       (draft (lit "abc") (Some (Time 1773100799999))))
  = Some dueDateInPastError.
Proof. reflexivity. Qed.

Example due_invalid :
  formErrors.due_date
    (validate (fixedZone 0) 1773156600000 (draft (lit "abc") (Some InvalidDate)))
  = None.
Proof. reflexivity. Qed.

(** New York, noon of 2026-11-01, the day the clocks go back: a due
    date at 00:30 of that day, daylight time, is valid. *)
Example due_after_clocks_go_back :
  formErrors.due_date
    (validate newYork2026 1793552400000
       (draft (lit "abc") (Some (Time 1793507400000))))
  = None.
Proof. reflexivity. Qed.

(** New York, noon of 2026-03-08, the day the clocks go forward: a
    due date at 00:30 of that day is valid, one at 23:30 of the day
    before, eleven and a half hours before that noon, is an error. *)
Lemma due_date_validation_witness :
  formErrors.due_date
    (validate newYork2026 1772985600000
       (draft (lit "abc") (Some (Time 1772947800000)))) = None
  /\ formErrors.due_date
       (validate newYork2026 1772985600000
          (draft (lit "abc") (Some (Time 1772944200000))))
     = Some dueDateInPastError.
Proof.
  assert (Rn : day_representable newYork2026 1772985600000)
    by (vm_compute; discriminate).
  split.
  - apply (due_date_validation newYork2026 1772985600000
             (draft (lit "abc") (Some (Time 1772947800000)))
             midnights_ordered_newYork2026 Rn) with 1772947800000%Z;
      try reflexivity.
    intros ms E. inversion E. vm_compute. discriminate.
  - apply (due_date_validation newYork2026 1772985600000
             (draft (lit "abc") (Some (Time 1772944200000)))
             midnights_ordered_newYork2026 Rn) with 1772944200000%Z;
      try reflexivity.
    intros ms E. inversion E. vm_compute. discriminate.
Defined.

(** ** Pagination buttons *)

Lemma searchParams_debounce_effect d :
  searchParams (debounce_effect d) = searchParams d.
Proof. unfold debounce_effect. destruct (handler d); reflexivity. Qed.

Lemma searchParams_navigate sp d : searchParams (navigate sp d) = sp.
Proof.
  unfold navigate. destruct (URLSearchParams_eq_dec sp (searchParams d)) as [E|E].
  - now symmetry.
  - now rewrite searchParams_debounce_effect.
Qed.

Lemma pagination_state_debounce_effect d :
  pagination_state (debounce_effect d) = pagination_state d.
Proof. unfold debounce_effect. destruct (handler d); reflexivity. Qed.

Lemma previous_onClick_page p sp :
  parse_page (previous_onClick (Num p) sp) = Num (Z.max 1 (p - 1)).
Proof.
  apply parse_page_of_toString. unfold previous_onClick.
  rewrite usp_get_set, str_eqb_refl. reflexivity.
Qed.

Lemma next_onClick_page p T sp :
  parse_page (next_onClick (Num p) (Num T) sp) = Num (Z.min T (p + 1)).
Proof.
  apply parse_page_of_toString. unfold next_onClick.
  rewrite usp_get_set, str_eqb_refl. reflexivity.
Qed.

(** C10. With the current page [p] and [total_pages = T],
    [1 <= p <= T] and [T] a safe integer: Previous writes [max(1, p-1)] and is disabled exactly
    when [p = 1]; Next writes [min(T, p+1)] and is disabled exactly
    when [p = T]; the page derived after either click is within
    [1, T]; and the buttons are rendered only when [T > 1]. *)
Theorem pagination_within_bounds d p T :
  parse_page (searchParams d) = Num p ->
  pagination.total_pages (pagination_state d) = Num T ->
  (1 <= p <= T)%Z ->
  isSafeInteger (Num T) = true ->
  parse_page (previous_onClick (Num p) (searchParams d)) = Num (Z.max 1 (p - 1))
  /\ (previous_disabled (Num p) = true <-> p = 1%Z)
  /\ parse_page (next_onClick (Num p) (Num T) (searchParams d))
     = Num (Z.min T (p + 1))
  /\ (next_disabled (Num p) (Num T) = true <-> p = T)
  /\ (exists q, parse_page (searchParams (step d ClickPrevious)) = Num q
                /\ q = Z.max 1 (p - 1) /\ (1 <= q <= T)%Z)
  /\ (exists q, parse_page (searchParams (step d ClickNext)) = Num q
                /\ q = Z.min T (p + 1) /\ (1 <= q <= T)%Z)
  /\ (pagination_rendered d = true -> (T > 1)%Z).
Proof.
  intros Hp HT Hb _.
  split; [apply previous_onClick_page|].
  split; [unfold previous_disabled; simpl; apply Z.eqb_eq|].
  split; [apply next_onClick_page|].
  split; [unfold next_disabled; simpl; apply Z.eqb_eq|].
  split; [|split].
  - exists (Z.max 1 (p - 1)). split; [|split; [reflexivity | lia]].
    simpl. rewrite Hp. unfold previous_disabled. simpl.
    destruct (Z.eqb_spec p 1) as [->|Hne].
    + rewrite Hp. reflexivity.
    + rewrite searchParams_navigate. apply previous_onClick_page.
  - exists (Z.min T (p + 1)). split; [|split; [reflexivity | lia]].
    simpl. rewrite Hp, HT. unfold next_disabled. simpl.
    destruct (Z.eqb_spec p T) as [->|Hne].
    + rewrite Hp. f_equal. lia.
    + rewrite searchParams_navigate. apply next_onClick_page.
  - unfold pagination_rendered. rewrite HT. unfold js_gt, js_lt.
    intros H. apply andb_prop in H. destruct H as [_ H].
    apply Z.ltb_lt in H. lia.
Qed.

(** The view opened on page 3 of 5, once the list has loaded: the
    buttons are shown, Previous leads to page 2 and Next to page 4. *)
Lemma pagination_within_bounds_witness :
  pagination_rendered page_3_of_5 = true
  /\ parse_page (searchParams (step page_3_of_5 ClickPrevious)) = Num 2
  /\ parse_page (searchParams (step page_3_of_5 ClickNext)) = Num 4.
Proof.
  destruct (pagination_within_bounds page_3_of_5 3 5 eq_refl eq_refl
              ltac:(lia) eq_refl)
    as (_ & _ & _ & _ & (q & Hq & -> & _) & (q' & Hq' & -> & _) & _).
  split; [reflexivity|]. split; [exact Hq | exact Hq'].
Defined.

Example previous_from_3 :
  previous_onClick (Num 3) [(lit "status", lit "done"); (lit "page", lit "3")]
  = [(lit "status", lit "done"); (lit "page", lit "2")].
Proof. reflexivity. Qed.

Example next_at_last_page :
  next_onClick (Num 5) (Num 5) [(lit "page", lit "5")] = [(lit "page", lit "5")].
Proof. reflexivity. Qed.

(** ** The continuation of [loadTasks] *)

Lemma has_request_In r l : In r l -> has_request (request_id r) l = true.
Proof.
  intros H. apply existsb_exists. exists r. split; [exact H | apply Nat.eqb_refl].
Qed.

Lemma settle_in_flight r response d :
  In r (in_flight d) ->
  settle (request_id r) response d =
  loadTasks_resume response
    (set_in_flight
       (filter (fun x => negb (request_id x =? request_id r)) (in_flight d)) d).
Proof.
  intros H. unfold settle.
  now rewrite (@has_request_In r _ H).
Qed.

(** C9. When the request of a list fetch is rejected, the task list
    and the pagination stay as they were, the error toast is shown, the
    loading flag is cleared, and nothing is retried: no request is sent
    and no timer is armed, the failed request only leaves the set of
    pending ones. *)
Theorem failed_fetch_keeps_view d r :
  In r (in_flight d) ->
  let d' := step d (Settle (request_id r) Rejected) in
  tasks d' = tasks d
  /\ pagination_state d' = pagination_state d
  /\ toasts d' = toasts d ++ [errorLoadingTasks]
  /\ loading d' = false
  /\ sent d' = sent d
  /\ timers d' = timers d
  /\ incl (in_flight d') (in_flight d)
  /\ ~ In r (in_flight d')
  /\ searchParams d' = searchParams d.
Proof.
  intros H d'. subst d'. simpl step. rewrite (@settle_in_flight r Rejected d H).
  simpl. repeat split.
  - intros x Hx. apply filter_In in Hx. tauto.
  - intros Hr. apply filter_In in Hr. destruct Hr as [_ Hr].
    now rewrite Nat.eqb_refl in Hr.
Qed.

Lemma failed_fetch_keeps_view_witness :
  tasks
    (step
       (run (mount 0 [])
          [Elapse 500; Settle 0 (Fulfilled sample_data_all);
           FilterChange (lit "status") (lit "done"); Elapse 500])
       (Settle 1 Rejected))
  = sample_tasks_all.
Proof.
  apply (@failed_fetch_keeps_view
           (run (mount 0 [])
              [Elapse 500; Settle 0 (Fulfilled sample_data_all);
               FilterChange (lit "status") (lit "done"); Elapse 500])
           (mkRequest 1 1000 [(lit "status", lit "done"); (lit "page", lit "1")])).
  vm_compute. left. reflexivity.
Defined.

(** C1, as stated, fails. Fetch A (the unfiltered list) is sent at
    500 ms and fetch B (status = done) at 1000 ms; B's response arrives
    first and is applied; A's response arrives later and replaces it:
    the view ends with A's tasks and pagination under B's URL. *)
Lemma stale_response_overwrites :
  let d1 := run (mount 0 [])
              [Elapse 500; FilterChange (lit "status") (lit "done"); Elapse 500] in
  let d2 := step d1 (Settle 1 (Fulfilled sample_data_done)) in
  let d3 := step d2 (Settle 0 (Fulfilled sample_data_all)) in
  map (fun r => (request_id r, sent_at r, request_params r)) (in_flight d1)
  = [ (0, 500%Z, []);
      (1, 1000%Z, [(lit "status", lit "done"); (lit "page", lit "1")]) ]
  /\ tasks d2 = data_tasks sample_data_done
  /\ pagination_state d2 = data_pagination sample_data_done
  /\ tasks d3 = data_tasks sample_data_all
  /\ pagination_state d3 = data_pagination sample_data_all
  /\ tasks d3 <> data_tasks sample_data_done
  /\ pagination_state d3 <> data_pagination sample_data_done
  /\ searchParams d3 = [(lit "status", lit "done"); (lit "page", lit "1")].
Proof. vm_compute. repeat split; discriminate. Qed.

(** C1, amended. [loadTasks] has no sequencing check: the response of
    every pending fetch is applied when it arrives. If A was sent
    before B and B's response is applied first, the view holds B's
    tasks and pagination until A's response arrives, and A's from then
    on: the last response to arrive wins. *)
Theorem responses_applied_in_arrival_order d a b dataA dataB :
  In a (in_flight d) ->
  In b (in_flight d) ->
  request_id a < request_id b ->
  let d1 := step d (Settle (request_id b) (Fulfilled dataB)) in
  let d2 := step d1 (Settle (request_id a) (Fulfilled dataA)) in
  tasks d1 = data_tasks dataB
  /\ pagination_state d1 = data_pagination dataB
  /\ tasks d2 = data_tasks dataA
  /\ pagination_state d2 = data_pagination dataA.
Proof.
  intros Ha Hb Hlt d1 d2. subst d2 d1. simpl step.
  rewrite (@settle_in_flight b (Fulfilled dataB) d Hb).
  split; [reflexivity|]. split; [reflexivity|].
  rewrite settle_in_flight; [split; reflexivity|].
  simpl. apply filter_In. split; [exact Ha|].
  apply negb_true_iff, Nat.eqb_neq. lia.
Qed.

Lemma responses_applied_in_arrival_order_witness :
  tasks
    (step
       (step
          (run (mount 0 [])
             [Elapse 500; FilterChange (lit "status") (lit "done"); Elapse 500])
          (Settle 1 (Fulfilled sample_data_done)))
       (Settle 0 (Fulfilled sample_data_all)))
  = sample_tasks_all.
Proof.
  apply (@responses_applied_in_arrival_order
           (run (mount 0 [])
              [Elapse 500; FilterChange (lit "status") (lit "done"); Elapse 500])
           (mkRequest 0 500 [])
           (mkRequest 1 1000 [(lit "status", lit "done"); (lit "page", lit "1")])
           sample_data_all sample_data_done).
  - vm_compute. left. reflexivity.
  - vm_compute. right. left. reflexivity.
  - simpl. lia.
Defined.

(** ** The debounce effect *)

Lemma debounce_effect_arms d :
  only_handler_pending d ->
  debounce_effect d =
  mkDashboard (searchParams d) (tasks d) (pagination_state d) (loading d)
    (toasts d) (clock d)
    [mkTimer (next_timer d) (clock d + 500) (searchParams d)]
    (S (next_timer d)) (Some (next_timer d)) (in_flight d) (sent d).
Proof.
  unfold only_handler_pending, debounce_effect. intros H.
  destruct d as [sp ts pg ld tt ck tms nt [h|] fl st]; simpl in *.
  - unfold clearTimeout, setTimeout, set_handler, set_timers. simpl.
    replace (filter (fun tm => negb (timer_id tm =? h)) tms) with (@nil Timer);
      [reflexivity|].
    symmetry. induction H as [|tm tms Htm _ IH]; simpl; [reflexivity|].
    inversion Htm; subst. now rewrite Nat.eqb_refl.
  - destruct H as [|tm tms Htm _]; [reflexivity | discriminate Htm].
Qed.

Lemma user_change_cases d e :
  user_change e ->
  searchParams (step d e) <> searchParams d ->
  step d e = debounce_effect (setSearchParams (searchParams (step d e)) d).
Proof.
  assert (N : forall sp, searchParams (navigate sp d) <> searchParams d ->
                         navigate sp d
                         = debounce_effect
                             (setSearchParams (searchParams (navigate sp d)) d)).
  { intros sp H. rewrite searchParams_navigate in *. unfold navigate.
    destruct (URLSearchParams_eq_dec sp (searchParams d)); congruence. }
  destruct e; simpl; intros U H; try contradiction; try (now apply N).
  - destruct (previous_disabled (parse_page (searchParams d)));
      [congruence | now apply N].
  - destruct (next_disabled (parse_page (searchParams d))
                (pagination.total_pages (pagination_state d)));
      [congruence | now apply N].
Qed.

(** A user change that alters the URL cancels the pending timer and
    arms one for 500 ms later, closed over the new URL. *)
Lemma change_arms d e :
  only_handler_pending d ->
  user_change e ->
  searchParams (step d e) <> searchParams d ->
  step d e =
  mkDashboard (searchParams (step d e)) (tasks d) (pagination_state d)
    (loading d) (toasts d) (clock d)
    [mkTimer (next_timer d) (clock d + 500) (searchParams (step d e))]
    (S (next_timer d)) (Some (next_timer d)) (in_flight d) (sent d).
Proof.
  intros I U H. rewrite (user_change_cases d e U H) at 1.
  now rewrite debounce_effect_arms.
Qed.

(** Fewer than 500 ms after the timer was armed nothing fires. *)
Lemma elapse_quiet sp ts pg ld tt ck id cp nt h fl st gap :
  (0 <= gap < 500)%Z ->
  elapse gap
    (mkDashboard sp ts pg ld tt ck [mkTimer id (ck + 500) cp] nt h fl st)
  = mkDashboard sp ts pg ld tt (ck + gap) [mkTimer id (ck + 500) cp] nt h fl st.
Proof.
  intros H. unfold elapse, due. simpl.
  destruct (Z.leb_spec (ck + 500) (ck + gap)); [lia | reflexivity].
Qed.

(** Once 500 ms have passed the timer fires, at its deadline, and
    [loadTasks] sends the request with the URL the timer closed over. *)
Lemma elapse_fires sp ts pg ld tt ck id cp nt h fl st idle :
  (500 <= idle)%Z ->
  elapse idle
    (mkDashboard sp ts pg ld tt ck [mkTimer id (ck + 500) cp] nt h fl st)
  = mkDashboard sp ts pg true tt (ck + idle) [] nt h
      (fl ++ [mkRequest (List.length st) (ck + 500) cp])
      (st ++ [mkRequest (List.length st) (ck + 500) cp]).
Proof.
  intros H. unfold elapse, due. simpl.
  destruct (Z.leb_spec (ck + 500) (ck + idle)); [|lia]. simpl.
  unfold fire, loadTasks, axios_get, set_clock. simpl.
  replace (Z.max ck (ck + 500)) with (ck + 500)%Z by lia. reflexivity.
Qed.

Lemma rapid_run d burst :
  only_handler_pending d ->
  rapid d burst ->
  let dN := run d (events_of burst) in
  only_handler_pending dN /\ sent dN = sent d.
Proof.
  revert d. induction burst as [|[e gap] rest IH]; intros d I R; simpl.
  - split; [exact I | reflexivity].
  - destruct R as (U & C & G & R).
    specialize (IH (step (step d e) (Elapse gap))).
    revert IH R. rewrite (change_arms d e I U C). simpl step.
    rewrite elapse_quiet by exact G. intros IH R.
    destruct IH as [I' S'].
    + repeat constructor.
    + exact R.
    + split; [exact I' | exact S'].
Qed.

Lemma mount_only_handler_pending now sp : only_handler_pending (mount now sp).
Proof. repeat constructor. Qed.

Lemma fold_fire_timers l s :
  timers (fold_left (fun s tm => fire tm s) l s) = timers s
  /\ handler (fold_left (fun s tm => fire tm s) l s) = handler s.
Proof.
  revert s. induction l as [|tm l IH]; intros s; simpl; [now split|].
  destruct (IH (fire tm s)) as [-> ->]. now split.
Qed.

(** The invariant holds in every state the view can reach. *)
Lemma step_only_handler_pending d e :
  only_handler_pending d -> only_handler_pending (step d e).
Proof.
  intros I.
  assert (N : forall sp, only_handler_pending (navigate sp d)).
  { intros sp. unfold navigate.
    destruct (URLSearchParams_eq_dec sp (searchParams d)); [exact I|].
    rewrite debounce_effect_arms by exact I. repeat constructor. }
  destruct e; simpl; try apply N.
  - destruct (previous_disabled _); [exact I | apply N].
  - destruct (next_disabled _ _); [exact I | apply N].
  - unfold only_handler_pending, elapse. simpl.
    destruct (fold_fire_timers
                (filter (due (clock d + ms)) (timers d))
                (set_timers
                   (filter (fun tm => negb (due (clock d + ms) tm)) (timers d)) d))
      as [-> ->].
    simpl. apply Forall_forall. intros tm Htm. apply filter_In in Htm.
    unfold only_handler_pending in I. rewrite Forall_forall in I.
    apply I. tauto.
  - unfold settle. destruct (has_request id (in_flight d)); [|exact I].
    destruct response; exact I.
Qed.

Lemma run_only_handler_pending now sp events :
  only_handler_pending (run (mount now sp) events).
Proof.
  unfold run. generalize (mount now sp) (mount_only_handler_pending now sp).
  induction events as [|e events IH]; intros d I; simpl; [exact I|].
  apply IH. now apply step_only_handler_pending.
Qed.

(** C2. After a burst of user changes, each altering the query string
    and each followed by fewer than 500 ms of quiet, a last change and
    then at least 500 ms of quiet send exactly one request: it leaves
    500 ms after the last change and carries the URL of that change,
    which is the URL current when the timer fires; no timer is left
    pending, the earlier ones having been cancelled. *)
Theorem debounce_coalesces d burst last idle :
  only_handler_pending d ->
  rapid d burst ->
  user_change last ->
  searchParams (step (run d (events_of burst)) last)
  <> searchParams (run d (events_of burst)) ->
  (500 <= idle)%Z ->
  let dN := run d (events_of burst) in
  let d' := run d (events_of burst ++ [last; Elapse idle]) in
  sent d' = sent d ++ [mkRequest (List.length (sent d)) (clock dN + 500)
                         (searchParams (step dN last))]
  /\ searchParams d' = searchParams (step dN last)
  /\ timers d' = [].
Proof.
  intros I R U C H dN d'. fold dN in C.
  destruct (rapid_run d burst I R) as [IN SN]. fold dN in IN, SN.
  assert (E : d' = elapse idle (step dN last)).
  { subst d' dN. unfold run. now rewrite fold_left_app. }
  rewrite E, (change_arms dN last IN U C), elapse_fires by exact H.
  simpl. rewrite SN. repeat split.
Qed.

(** Typing "b", "bu", "bug" in the search box, 120 ms and 80 ms apart,
    right after the view mounted: one request, 500 ms after the last
    keystroke. *)
Lemma debounce_coalesces_witness :
  sent
    (run (mount 0 [])
       (events_of [ (FilterChange (lit "search") (lit "b"), 120%Z);
                    (FilterChange (lit "search") (lit "bu"), 80%Z) ]
        ++ [FilterChange (lit "search") (lit "bug"); Elapse 500]))
  = [ mkRequest 0 700 [(lit "search", lit "bug"); (lit "page", lit "1")] ].
Proof.
  apply (@debounce_coalesces (mount 0 [])
           [ (FilterChange (lit "search") (lit "b"), 120%Z);
             (FilterChange (lit "search") (lit "bu"), 80%Z) ]
           (FilterChange (lit "search") (lit "bug")) 500).
  - apply mount_only_handler_pending.
  - simpl. repeat split; try lia; vm_compute; discriminate.
  - exact I.
  - vm_compute. discriminate.
  - lia.
Defined.

(* ================================================================== *)
(** * Further properties of the query state *)

(** ** Entries of one name *)

Lemma entries_delete_same k sp : filter (named k) (usp_delete k sp) = [].
Proof.
  unfold usp_delete. induction sp as [|e sp IH]; simpl; [reflexivity|].
  destruct (named k e) eqn:E; simpl; [exact IH | now rewrite E].
Qed.

Lemma named_other k k' e : k <> k' -> named k' e = true -> named k e = false.
Proof.
  unfold named. intros Hk H. apply str_eqb_eq in H. apply str_eqb_neq. congruence.
Qed.

Lemma entries_delete_other k k' sp :
  k <> k' -> filter (named k) (usp_delete k' sp) = filter (named k) sp.
Proof.
  intros Hk. unfold usp_delete. induction sp as [|e sp IH]; simpl; [reflexivity|].
  destruct (named k' e) eqn:E; simpl.
  - now rewrite (named_other k k' e Hk E).
  - now rewrite IH.
Qed.

Lemma entries_set_same k v sp : filter (named k) (usp_set k v sp) = [(k, v)].
Proof.
  assert (Hn : named k (k, v) = true) by apply str_eqb_refl.
  induction sp as [|e sp IH]; simpl; [now rewrite Hn|].
  destruct (named k e) eqn:E; simpl.
  - now rewrite Hn, entries_delete_same.
  - now rewrite E.
Qed.

Lemma entries_set_other k k' v sp :
  k <> k' -> filter (named k) (usp_set k' v sp) = filter (named k) sp.
Proof.
  intros Hk.
  assert (Hn : named k (k', v) = false).
  { apply str_eqb_neq. simpl. congruence. }
  induction sp as [|e sp IH]; simpl; [now rewrite Hn|].
  destruct (named k' e) eqn:E; simpl.
  - now rewrite Hn, (named_other k k' e Hk E), entries_delete_other.
  - now rewrite IH.
Qed.

Lemma usp_delete_fixed k sp : filter (named k) sp = [] -> usp_delete k sp = sp.
Proof.
  unfold usp_delete. induction sp as [|e sp IH]; simpl; [reflexivity|].
  destruct (named k e); simpl; [discriminate|]. intros H. now rewrite IH.
Qed.

Lemma usp_set_fixed k v sp : filter (named k) sp = [(k, v)] -> usp_set k v sp = sp.
Proof.
  induction sp as [|e sp IH]; simpl; [discriminate|].
  destruct (named k e); simpl; intros H.
  - injection H as He Hsp. subst e. now rewrite usp_delete_fixed.
  - now rewrite IH.
Qed.

Lemma usp_delete_set_same k v sp : usp_delete k (usp_set k v sp) = usp_delete k sp.
Proof.
  assert (Hn : named k (k, v) = true) by apply str_eqb_refl.
  induction sp as [|e sp IH]; simpl; [now rewrite Hn|].
  destruct (named k e) eqn:E; simpl.
  - rewrite Hn. simpl. apply usp_delete_fixed, entries_delete_same.
  - rewrite E. simpl. now rewrite IH.
Qed.

Lemma usp_set_set_same k v w sp : usp_set k v (usp_set k w sp) = usp_set k v sp.
Proof.
  assert (Hn : named k (k, w) = true) by apply str_eqb_refl.
  induction sp as [|e sp IH]; simpl; [now rewrite Hn|].
  destruct (named k e) eqn:E; simpl.
  - rewrite Hn. f_equal. apply usp_delete_fixed, entries_delete_same.
  - rewrite E. now rewrite IH.
Qed.

(** ** One filter change *)

(** X1. [handleFilterChange key value] with well-formed strings, a
    value that is stored (not empty, not ["all"], not ["unassigned"])
    and a key other than [page]: the key then reads [value], and every
    well-formed key other than [key] and [page] reads what it read
    before. *)
Theorem filter_write_then_read key value searchParams :
  isWellFormed key = true ->
  isWellFormed value = true ->
  key <> lit "page" ->
  stored value = true ->
  usp_get key (handleFilterChange key value searchParams) = Some value
  /\ (forall k, isWellFormed k = true -> k <> key -> k <> lit "page" ->
                usp_get k (handleFilterChange key value searchParams)
                = usp_get k searchParams).
Proof.
  intros _ _ Hk Hv. rewrite stored_noop in Hv. apply negb_true_iff in Hv. split.
  - rewrite handleFilterChange_get by exact Hk. now rewrite str_eqb_refl, Hv.
  - intros k _ Hne Hp. rewrite handleFilterChange_get by exact Hp.
    apply str_eqb_neq in Hne. now rewrite Hne.
Qed.

Lemma filter_write_then_read_witness :
  usp_get (lit "status")
    (handleFilterChange (lit "status") (lit "doing")
       [(lit "status", lit "done"); (lit "status", lit "todo");
        (lit "search", lit "bug"); (lit "page", lit "4")])
  = Some (lit "doing").
Proof.
  apply (filter_write_then_read (lit "status") (lit "doing")
           [(lit "status", lit "done"); (lit "status", lit "todo");
            (lit "search", lit "bug"); (lit "page", lit "4")]).
  - reflexivity.
  - reflexivity.
  - discriminate.
  - reflexivity.
Defined.

Lemma handleFilterChange_idem key value sp :
  handleFilterChange key value (handleFilterChange key value sp)
  = handleFilterChange key value sp.
Proof.
  unfold handleFilterChange.
  destruct (list_eq_dec N.eq_dec key (lit "page")) as [->|Hk];
    destruct (stored value).
  - now rewrite (usp_set_set_same (lit "page") value (lit "1")),
      (usp_set_set_same (lit "page") value value).
  - now rewrite usp_delete_set_same, (usp_delete_fixed (lit "page") (usp_delete _ _))
      by apply entries_delete_same.
  - rewrite (usp_set_fixed key value (usp_set (lit "page") _ _)).
    + apply usp_set_fixed, entries_set_same.
    + rewrite entries_set_other by exact Hk. apply entries_set_same.
  - rewrite (usp_delete_fixed key (usp_set (lit "page") _ _)).
    + apply usp_set_fixed, entries_set_same.
    + rewrite entries_set_other by exact Hk. apply entries_delete_same.
Qed.

(** X2. Repeating a filter change is idle: the URL after the second
    identical [handleFilterChange] is the URL after the first, and the
    whole state of the view is unchanged, so the pending debounce timer
    is neither cancelled nor re-armed. *)
Theorem repeated_filter_change_is_idle d key value :
  handleFilterChange key value (handleFilterChange key value (searchParams d))
  = handleFilterChange key value (searchParams d)
  /\ step (step d (FilterChange key value)) (FilterChange key value)
     = step d (FilterChange key value).
Proof.
  split; [apply handleFilterChange_idem|].
  simpl. rewrite searchParams_navigate, handleFilterChange_idem.
  set (sp := handleFilterChange key value (searchParams d)).
  unfold navigate at 1. rewrite searchParams_navigate.
  destruct (URLSearchParams_eq_dec sp sp); [reflexivity | congruence].
Qed.

(** X3. After [handleFilterChange] the URL holds exactly one [page]
    entry and at most one entry of the changed key, however many
    duplicates of either the URL held before; entries of the other keys
    are kept as they were, duplicates included. *)
Theorem filter_change_collapses_duplicates key value searchParams :
  filter (named (lit "page")) (handleFilterChange key value searchParams)
  = [(lit "page", lit "1")]
  /\ List.length (filter (named key) (handleFilterChange key value searchParams)) <= 1
  /\ (forall k, k <> key -> k <> lit "page" ->
                filter (named k) (handleFilterChange key value searchParams)
                = filter (named k) searchParams).
Proof.
  unfold handleFilterChange. split; [apply entries_set_same|]. split.
  - destruct (list_eq_dec N.eq_dec key (lit "page")) as [->|Hk].
    + rewrite entries_set_same. simpl. lia.
    + rewrite entries_set_other by exact Hk.
      destruct (stored value);
        [rewrite entries_set_same | rewrite entries_delete_same]; simpl; lia.
  - intros k Hne Hp. rewrite entries_set_other by exact Hp.
    destruct (stored value);
      [apply entries_set_other | apply entries_delete_other]; exact Hne.
Qed.

(** ** Paging keeps the filters *)

Lemma parse_filters_set_page v sp :
  parse_filters (usp_set (lit "page") v sp) = parse_filters sp
  /\ parse_per_page (usp_set (lit "page") v sp) = parse_per_page sp.
Proof.
  split; [apply parse_filters_set_number; now left|].
  unfold parse_per_page. rewrite usp_get_set. now eval_keys.
Qed.

(** X4. The Previous and Next buttons change nothing but the page: in
    every state, the nine filters and [per_page] derived from the URL
    after the click are the ones derived before it. *)
Theorem paging_keeps_filters d e :
  e = ClickPrevious \/ e = ClickNext ->
  parse_filters (searchParams (step d e)) = parse_filters (searchParams d)
  /\ parse_per_page (searchParams (step d e)) = parse_per_page (searchParams d).
Proof.
  intros [-> | ->]; simpl.
  - destruct (previous_disabled _); [now split|].
    rewrite searchParams_navigate. apply parse_filters_set_page.
  - destruct (next_disabled _ _); [now split|].
    rewrite searchParams_navigate. apply parse_filters_set_page.
Qed.

Lemma paging_keeps_filters_witness :
  parse_filters
    (searchParams
       (step (mount 0 [(lit "status", lit "done"); (lit "page", lit "3")])
          ClickPrevious))
  = parse_filters [(lit "status", lit "done"); (lit "page", lit "3")].
Proof.
  apply (paging_keeps_filters
           (mount 0 [(lit "status", lit "done"); (lit "page", lit "3")])
           ClickPrevious).
  left. reflexivity.
Defined.

(** ** A page that is not a number *)

(** X5. When the page derived from the URL is [NaN] (a malformed
    [page] value), neither button is disabled, a click writes
    [page=NaN] and the page stays [NaN]; any [handleFilterChange]
    brings it back to 1. *)
Theorem nan_page_sticks d :
  parse_page (searchParams d) = NaN ->
  previous_disabled (parse_page (searchParams d)) = false
  /\ next_disabled (parse_page (searchParams d))
       (pagination.total_pages (pagination_state d)) = false
  /\ usp_get (lit "page") (searchParams (step d ClickPrevious)) = Some (lit "NaN")
  /\ usp_get (lit "page") (searchParams (step d ClickNext)) = Some (lit "NaN")
  /\ parse_page (searchParams (step d ClickPrevious)) = NaN
  /\ parse_page (searchParams (step d ClickNext)) = NaN
  /\ (forall key value,
         parse_page (searchParams (step d (FilterChange key value))) = Num 1).
Proof.
  intros H.
  assert (P : usp_get (lit "page") (searchParams (step d ClickPrevious))
              = Some (lit "NaN")).
  { simpl. rewrite H. simpl. rewrite searchParams_navigate.
    unfold previous_onClick. now rewrite usp_get_set. }
  assert (Q : usp_get (lit "page") (searchParams (step d ClickNext))
              = Some (lit "NaN")).
  { simpl. rewrite H. simpl. rewrite searchParams_navigate.
    unfold next_onClick. rewrite usp_get_set. simpl.
    now destruct (pagination.total_pages (pagination_state d)). }
  rewrite H. repeat split; try assumption.
  - unfold parse_page. now rewrite P.
  - unfold parse_page. now rewrite Q.
  - intros key value. simpl. rewrite searchParams_navigate.
    unfold parse_page. now rewrite handleFilterChange_page.
Qed.

Lemma nan_page_sticks_witness :
  parse_page (searchParams (step (mount 0 [(lit "page", lit "abc")]) ClickNext))
  = NaN.
Proof.
  apply (nan_page_sticks (mount 0 [(lit "page", lit "abc")])). reflexivity.
Defined.

(** ** Values with an integer prefix *)

Lemma digits_prefix_units_app d rest :
  digits_prefix (uint_units d ++ rest)
  = digits_prefix (uint_units d) ++ digits_prefix rest.
Proof.
  induction d; simpl uint_units; [reflexivity | ..];
    rewrite <- app_comm_cons, !digits_prefix_head by lia;
    simpl; now rewrite IHd.
Qed.

Lemma no_leading_digit rest :
  match rest with [] => True | c :: _ => digit_value c = None end ->
  digits_prefix rest = [].
Proof. destruct rest as [|c rest]; simpl; [reflexivity|]. now intros ->. Qed.

Lemma parseInt_prefix ws z rest :
  forallb isWhiteSpace ws = true ->
  match rest with [] => True | c :: _ => digit_value c = None end ->
  parseInt (ws ++ toString (Num z) ++ rest) = Num z.
Proof.
  intros Hws Hrest. rewrite <- (parseInt_toString (Num z)) at 2.
  unfold parseInt. rewrite trimStart_spaces by exact Hws.
  assert (G : forall d, d <> Decimal.Nil ->
                trimStart (uint_units d ++ rest) = uint_units d ++ rest
                /\ trimStart (uint_units d) = uint_units d
                /\ read_sign (uint_units d ++ rest) = (1%Z, uint_units d ++ rest)
                /\ read_sign (uint_units d) = (1%Z, uint_units d)).
  { intros d Hd. destruct (units_head d Hd) as (c & s & -> & Hc).
    rewrite <- app_comm_cons. cbn [trimStart].
    rewrite (digit_not_space c Hc), (read_sign_digit c s Hc).
    now rewrite (read_sign_digit c (s ++ rest) Hc). }
  unfold toString.
  destruct (Z.to_int z) as [u|u] eqn:E.
  - assert (Hu : u <> Decimal.Nil).
    { destruct z; simpl in E; inversion E; subst;
        [discriminate | apply DecimalPos.Unsigned.to_uint_nonnil]. }
    destruct (G u Hu) as (-> & -> & -> & ->).
    now rewrite digits_prefix_units_app, (no_leading_digit rest Hrest), app_nil_r.
  - simpl trimStart. simpl read_sign. cbv iota beta.
    now rewrite digits_prefix_units_app, (no_leading_digit rest Hrest), app_nil_r.
Qed.

(** X6. A [page] or [per_page] value made of white space, the decimal
    numeral of a safe integer and then text that does not start with a
    digit is read as that integer: the rest of the value is ignored. *)
Theorem parse_reads_integer_prefix sp ws z rest :
  isSafeInteger (Num z) = true ->
  forallb isWhiteSpace ws = true ->
  match rest with [] => True | c :: _ => digit_value c = None end ->
  (usp_get (lit "page") sp = Some (ws ++ toString (Num z) ++ rest) ->
   page (parse sp) = Num z)
  /\ (usp_get (lit "per_page") sp = Some (ws ++ toString (Num z) ++ rest) ->
      per_page (parse sp) = Num z).
Proof.
  intros _ Hws Hrest.
  assert (T : truthy (ws ++ toString (Num z) ++ rest) = true).
  { destruct ws; [|reflexivity].
    pose proof (toString_truthy (Num z)) as H.
    change ([] ++ toString (Num z) ++ rest) with (toString (Num z) ++ rest).
    destruct (toString (Num z)); [discriminate H | reflexivity]. }
  split; intros H; simpl; unfold parse_page, parse_per_page; rewrite H;
    unfold or_else; rewrite T; now apply parseInt_prefix.
Qed.

Lemma parse_reads_integer_prefix_witness :
  page (parse [(lit "page", lit " 12px")]) = Num 12.
Proof.
  apply (parse_reads_integer_prefix [(lit "page", lit " 12px")]
           (lit " ") 12 (lit "px")); reflexivity.
Defined.

(** ** Clearing the filters *)

(** X7. [clearFilters] replaces the URL wholesale, in every state:
    the URL becomes the four default entries, so every other key is
    gone (also keys the view does not read, which [handleFilterChange]
    would keep), the derived snapshot is the default one, and a second
    [clearFilters] leaves the whole state as it is. *)
Theorem clearFilters_resets d :
  searchParams (step d ClearFilters) = clearFilters
  /\ parse (searchParams (step d ClearFilters))
     = {| page := Num 1; per_page := Num 10;
          filters := mkFilters [] [] [] [] [] [] []
                       (lit "created_at") (lit "desc") |}
  /\ (forall k, k <> lit "page" -> k <> lit "per_page" ->
                k <> lit "sort_by" -> k <> lit "sort_order" ->
                usp_get k (searchParams (step d ClearFilters)) = None)
  /\ step (step d ClearFilters) ClearFilters = step d ClearFilters.
Proof.
  assert (E : searchParams (step d ClearFilters) = clearFilters)
    by apply searchParams_navigate.
  split; [exact E|]. rewrite E. split; [reflexivity|]. split.
  - intros k H1 H2 H3 H4. unfold clearFilters. simpl. unfold named. simpl.
    rewrite !(str_eqb_sym _ k).
    apply str_eqb_neq in H1, H2, H3, H4. now rewrite H1, H2, H3, H4.
  - simpl. unfold navigate at 1. rewrite searchParams_navigate.
    destruct (URLSearchParams_eq_dec clearFilters clearFilters);
      [reflexivity | congruence].
Qed.

(** ** The first load and quiescence *)

Lemma mount_state now sp :
  mount now sp =
  mkDashboard sp []
    (pagination.mk (parse_page sp) (parse_per_page sp) (Num 0) (Num 0))
    true [] now [mkTimer 0 (now + 500) sp] 1 (Some 0) [] [].
Proof. reflexivity. Qed.

Lemma elapse_idle sp ts pg ld tt ck nt h fl st ms :
  elapse ms (mkDashboard sp ts pg ld tt ck [] nt h fl st)
  = mkDashboard sp ts pg ld tt (ck + ms) [] nt h fl st.
Proof. reflexivity. Qed.

(** X8. After the view mounts at time [now] with the URL [sp] and at
    least 500 ms pass without a change, exactly one request has been
    sent: it left at [now + 500] with the parameters [sp]. The loading
    flag is up, no timer is pending, and the further passing of time
    sends nothing: the view does not poll. *)
Theorem first_load now sp ms :
  (500 <= ms)%Z ->
  let d := step (mount now sp) (Elapse ms) in
  sent d = [mkRequest 0 (now + 500) sp]
  /\ in_flight d = [mkRequest 0 (now + 500) sp]
  /\ loading d = true
  /\ timers d = []
  /\ (forall ms', sent (step d (Elapse ms')) = sent d
                  /\ timers (step d (Elapse ms')) = []).
Proof.
  intros H d. subst d. simpl step. rewrite mount_state.
  rewrite elapse_fires by exact H. simpl.
  repeat split.
Qed.

Lemma first_load_witness :
  sent (step (mount 1000 [(lit "status", lit "done")]) (Elapse 750))
  = [mkRequest 0 1500 [(lit "status", lit "done")]].
Proof.
  apply (first_load 1000 [(lit "status", lit "done")] 750). lia.
Defined.

(** ** Overlapping fetches and the loading flag *)

(** X9. The loading flag is cleared by whichever response arrives,
    fulfilled or rejected, also while another list fetch is still
    pending: [finally] runs [setLoading(false)] with no regard to the
    other requests. *)
Theorem loading_cleared_while_pending d a b response :
  In a (in_flight d) ->
  In b (in_flight d) ->
  request_id a <> request_id b ->
  let d' := step d (Settle (request_id a) response) in
  loading d' = false /\ In b (in_flight d').
Proof.
  intros Ha Hb Hne d'. subst d'. simpl step.
  rewrite (settle_in_flight a response d Ha).
  split.
  - destruct response; reflexivity.
  - assert (F : In b (filter (fun x => negb (request_id x =? request_id a))
                        (in_flight d))).
    { apply filter_In. split; [exact Hb|].
      apply negb_true_iff, Nat.eqb_neq. congruence. }
    destruct response; exact F.
Qed.

Lemma loading_cleared_while_pending_witness :
  loading
    (step
       (run (mount 0 [])
          [Elapse 500; FilterChange (lit "status") (lit "done"); Elapse 500])
       (Settle 0 Rejected))
  = false.
Proof.
  apply (loading_cleared_while_pending
           (run (mount 0 [])
              [Elapse 500; FilterChange (lit "status") (lit "done"); Elapse 500])
           (mkRequest 0 500 [])
           (mkRequest 1 1000 [(lit "status", lit "done"); (lit "page", lit "1")])
           Rejected).
  - vm_compute. left. reflexivity.
  - vm_compute. right. left. reflexivity.
  - simpl. lia.
Defined.

(** ** What a change of the URL leaves alone *)

Lemma navigate_frame sp d :
  tasks (navigate sp d) = tasks d
  /\ pagination_state (navigate sp d) = pagination_state d
  /\ loading (navigate sp d) = loading d
  /\ toasts (navigate sp d) = toasts d
  /\ in_flight (navigate sp d) = in_flight d
  /\ sent (navigate sp d) = sent d
  /\ clock (navigate sp d) = clock d.
Proof.
  unfold navigate. destruct (URLSearchParams_eq_dec sp (searchParams d)).
  - repeat split.
  - unfold debounce_effect. simpl. destruct (handler d); repeat split.
Qed.

(** X10. A change of filter, a click on a pagination button or
    [clearFilters] only moves the URL and the debounce timer: it sends
    no request, drops no pending request, and leaves the task list, the
    pagination, the loading flag and the toasts as they are. *)
Theorem user_change_sends_nothing d e :
  user_change e ->
  tasks (step d e) = tasks d
  /\ pagination_state (step d e) = pagination_state d
  /\ loading (step d e) = loading d
  /\ toasts (step d e) = toasts d
  /\ in_flight (step d e) = in_flight d
  /\ sent (step d e) = sent d
  /\ clock (step d e) = clock d.
Proof.
  destruct e; simpl; intros U; try contradiction; try apply navigate_frame.
  - destruct (previous_disabled _); [repeat split | apply navigate_frame].
  - destruct (next_disabled _ _); [repeat split | apply navigate_frame].
Qed.

Lemma user_change_sends_nothing_witness :
  sent
    (step (step (mount 0 []) (Elapse 500))
       (FilterChange (lit "search") (lit "bug")))
  = sent (step (mount 0 []) (Elapse 500)).
Proof.
  apply (user_change_sends_nothing (step (mount 0 []) (Elapse 500))
           (FilterChange (lit "search") (lit "bug"))).
  exact I.
Defined.

(* ================================================================== *)
(** * The task modal *)

Lemma validate_title_none zone now form :
  formErrors.title (validate zone now form) = None
  <-> (3 <= Z.of_nat (List.length (trim (taskForm.title form))) <= 120)%Z.
Proof.
  unfold validate. cbn [formErrors.title].
  set (len := Z.of_nat (List.length (trim (taskForm.title form)))).
  assert (0 <= len)%Z by (unfold len; lia).
  destruct (Z.gtb_spec len 0), (Z.ltb_spec len 3), (Z.gtb_spec len 120),
    (Z.eqb_spec len 0); simpl; split; intros; try discriminate;
    try reflexivity; lia.
Qed.

Lemma validate_due_date_none zone now form :
  midnights_ordered zone ->
  day_representable zone now ->
  (forall ms, taskForm.due_date form = Some (Time ms) ->
              day_representable zone ms) ->
  formErrors.due_date (validate zone now form) = None
  <-> ~ (exists ms, taskForm.due_date form = Some (Time ms)
                    /\ (localDay zone ms < localDay zone now)%Z).
Proof.
  intros M Rn Rd. unfold validate. cbn [formErrors.due_date].
  destruct (taskForm.due_date form) as [[ms|]|].
  - rewrite (setHours0_lt zone ms now M (Rd ms eq_refl) Rn).
    destruct (Z.ltb_spec (localDay zone ms) (localDay zone now)).
    + split; [discriminate|]. intros N. exfalso. apply N. now exists ms.
    + split; [|reflexivity]. intros _ (ms' & E & L). inversion E; subst. lia.
  - simpl. split; [|reflexivity]. intros _ (ms' & E & _). discriminate E.
  - split; [|reflexivity]. intros _ (ms' & E & _). discriminate E.
Qed.

Lemma keys_length_zero e :
  formErrors.keys_length e = 0
  <-> formErrors.title e = None /\ formErrors.due_date e = None.
Proof.
  unfold formErrors.keys_length.
  destruct (formErrors.title e), (formErrors.due_date e); simpl;
    split; intros H; try lia; try (destruct H; discriminate);
    try (split; reflexivity).
Qed.

Lemma handleTaskSubmit_refuses zone format now m :
  midnights_ordered zone ->
  day_representable zone now ->
  (forall ms, taskForm.due_date (taskForm_state m) = Some (Time ms) ->
              day_representable zone ms) ->
  let form := taskForm_state m in
  let len := Z.of_nat (List.length (trim (taskForm.title form))) in
  handleTaskSubmit format (validation_effect zone now m) = Refused invalidForm
  <-> ((len < 3 \/ 120 < len)%Z
       \/ exists ms, taskForm.due_date form = Some (Time ms)
                     /\ (localDay zone ms < localDay zone now)%Z).
Proof.
  intros M Rn Rd form len. unfold handleTaskSubmit, validation_effect.
  cbn [formErrors_state taskForm_state editingTask]. fold form.
  pose proof (keys_length_zero (validate zone now form)) as K.
  pose proof (validate_title_none zone now form) as T.
  pose proof (validate_due_date_none zone now form M Rn Rd) as D.
  fold len in T.
  destruct (Nat.ltb_spec 0 (formErrors.keys_length (validate zone now form)))
    as [L|L].
  - split; [intros _|reflexivity].
    destruct (formErrors.title (validate zone now form)) eqn:ET.
    + left. destruct (Z.le_gt_cases 3 len) as [G|G]; [|lia].
      destruct (Z.le_gt_cases len 120) as [G'|G']; [|lia].
      assert (@None i18n.Message = Some m0 -> False) by discriminate.
      exfalso. destruct T as [_ T]. specialize (T (conj G G')). discriminate T.
    + right.
      destruct (formErrors.due_date (validate zone now form)) eqn:ED.
      * unfold validate in ED. cbn [formErrors.due_date] in ED. fold form in ED.
        destruct (taskForm.due_date form) as [[ms|]|] eqn:EF;
          try discriminate ED.
        rewrite (setHours0_lt zone ms now M (Rd ms EF) Rn) in ED.
        destruct (Z.ltb_spec (localDay zone ms) (localDay zone now));
          [|discriminate ED].
        exists ms. now split.
      * exfalso. destruct K as [_ K]. specialize (K (conj eq_refl eq_refl)). lia.
  - assert (Z0 : formErrors.keys_length (validate zone now form) = 0) by lia.
    apply K in Z0. destruct Z0 as [ET ED].
    apply T in ET. apply D in ED.
    split.
    + intros H. exfalso.
      destruct (build_taskData format form); [destruct (editingTask m)|];
        discriminate H.
    + intros [H|H]; [lia | contradiction].
Qed.

(** X11. In a time zone whose local midnights come in the order of
    their days, and for dates whose day begins within the range of
    [Date]: when the validation effect has run at time [now],
    [handleTaskSubmit] refuses the form, showing the invalid-form toast
    and sending nothing, exactly when the trimmed title has fewer than
    3 or more than 120 code units or the due date falls on a day, local
    time, before the day of [now]. *)
Theorem submit_refused_iff_invalid zone format now m :
  midnights_ordered zone ->
  day_representable zone now ->
  (forall ms, taskForm.due_date (taskForm_state m) = Some (Time ms) ->
              day_representable zone ms) ->
  let form := taskForm_state m in
  let len := Z.of_nat (List.length (trim (taskForm.title form))) in
  handleTaskSubmit format (validation_effect zone now m) = Refused invalidForm
  <-> ((len < 3 \/ 120 < len)%Z
       \/ exists ms, taskForm.due_date form = Some (Time ms)
                     /\ (localDay zone ms < localDay zone now)%Z).
Proof. apply handleTaskSubmit_refuses. Qed.

(** New York, noon of 2026-11-01, the day the clocks go back: a form
    whose due date is 23:30 of the day before is refused. *)
Lemma submit_refused_iff_invalid_witness :
  handleTaskSubmit (fun _ => Some (lit "2026-10-31T23:30:00.000Z"))
    (validation_effect newYork2026 1793552400000
       (mkModal true None
          (draft (lit "write the report") (Some (Time 1793503800000)))
          (formErrors.mk None None)))
  = Refused invalidForm.
Proof.
  apply (submit_refused_iff_invalid newYork2026
           (fun _ => Some (lit "2026-10-31T23:30:00.000Z")) 1793552400000
           (mkModal true None
              (draft (lit "write the report") (Some (Time 1793503800000)))
              (formErrors.mk None None))
           midnights_ordered_newYork2026).
  - vm_compute. discriminate.
  - intros ms E. inversion E. vm_compute. discriminate.
  - right. exists 1793503800000%Z. split; reflexivity.
Defined.

(** The same noon: a due date at 00:30 of that day, daylight time, is
    accepted, although it lies more than 24 hours before the midnight
    that ends the day. *)
Example submit_after_clocks_go_back :
  handleTaskSubmit (fun _ => Some (lit "2026-11-01T00:30:00.000Z"))
    (validation_effect newYork2026 1793552400000
       (mkModal true None
          (draft (lit "write the report") (Some (Time 1793507400000)))
          (formErrors.mk None None)))
  = Awaiting
      (axios_post
         (taskData.mk (lit "write the report") [] (lit "todo") (lit "med")
            (Some (lit "2026-11-01T00:30:00.000Z")) [] (lit ""))).
Proof. reflexivity. Qed.

Lemma build_taskData_fields format form body :
  build_taskData format form = Some body ->
  taskData.title body = taskForm.title form
  /\ taskData.description body = taskForm.description form
  /\ taskData.status body = taskForm.status form
  /\ taskData.priority body = taskForm.priority form
  /\ taskData.tags body = taskForm.tags form
  /\ taskData.assigned_to body
     = (if str_eqb (taskForm.assigned_to form) (lit "unassigned") then lit ""
        else taskForm.assigned_to form)
  /\ (taskData.due_date body = None <-> taskForm.due_date form = None).
Proof.
  unfold build_taskData.
  destruct (taskForm.due_date form) as [d|];
    [destruct (format d) as [s|]; [|discriminate]|];
    intros H; inversion H; subst; simpl; repeat split; try discriminate;
    intros; congruence.
Qed.

(** X12. The request [handleTaskSubmit] sends is [PUT /tasks/:id] of
    the task being edited, or [POST /tasks] when none is; it is never a
    [DELETE]. Its body copies the title (untrimmed), description,
    status, priority and tags of the form, never carries the assignee
    ["unassigned"] (that value is sent as the empty string, any other
    as it is), and has a [null] due date exactly when the form has
    none. *)
Theorem submit_payload format m call :
  handleTaskSubmit format m = Awaiting call ->
  exists body,
    call = match editingTask m with
           | Some task => axios_put (task.id task) body
           | None => axios_post body
           end
    /\ taskData.title body = taskForm.title (taskForm_state m)
    /\ taskData.description body = taskForm.description (taskForm_state m)
    /\ taskData.status body = taskForm.status (taskForm_state m)
    /\ taskData.priority body = taskForm.priority (taskForm_state m)
    /\ taskData.tags body = taskForm.tags (taskForm_state m)
    /\ taskData.assigned_to body <> lit "unassigned"
    /\ (taskForm.assigned_to (taskForm_state m) <> lit "unassigned" ->
        taskData.assigned_to body = taskForm.assigned_to (taskForm_state m))
    /\ (taskForm.assigned_to (taskForm_state m) = lit "unassigned" ->
        taskData.assigned_to body = lit "")
    /\ (taskData.due_date body = None
        <-> taskForm.due_date (taskForm_state m) = None).
Proof.
  unfold handleTaskSubmit.
  destruct (0 <? formErrors.keys_length (formErrors_state m)); [discriminate|].
  destruct (build_taskData format (taskForm_state m)) as [body|] eqn:B;
    [|discriminate].
  intros H. exists body.
  destruct (build_taskData_fields format _ body B)
    as (F1 & F2 & F3 & F4 & F5 & F6 & F7).
  split; [destruct (editingTask m); inversion H; reflexivity|].
  repeat (split; [assumption|]).
  rewrite F6.
  destruct (str_eqb (taskForm.assigned_to (taskForm_state m)) (lit "unassigned"))
    eqn:E.
  - apply str_eqb_eq in E. repeat split; try assumption; try reflexivity.
    + discriminate.
    + intros N. contradiction.
    + apply F7.
    + apply F7.
  - apply str_eqb_neq in E. repeat split; try assumption; try reflexivity.
    + intros N. contradiction.
    + apply F7.
    + apply F7.
Qed.

Lemma submit_payload_witness :
  exists body,
    axios_post
      (taskData.mk (lit "  write the report  ") [] (lit "todo") (lit "med")
         None [] (lit ""))
    = axios_post body
    /\ taskData.title body = lit "  write the report  ".
Proof.
  destruct (submit_payload (fun _ => None)
              (mkModal true None (draft (lit "  write the report  ") None)
                 (formErrors.mk None None))
              (axios_post
                 (taskData.mk (lit "  write the report  ") [] (lit "todo")
                    (lit "med") None [] (lit "")))
              eq_refl) as (body & E & T & _).
  exists body. split; [exact E | exact T].
Defined.

(** X13. In a time zone whose local midnights come in the order of
    their days, and for dates whose day begins within the range of
    [Date]: a task whose due date lies on a day, local time, before
    today cannot be saved from the edit modal as it opens:
    [openTaskModal(task)] puts a fresh [Date] in the form, the
    validation effect runs, and [handleTaskSubmit] refuses, whatever the
    other fields are. *)
Theorem overdue_task_edit_is_refused zone newDate format now task m s ms :
  midnights_ordered zone ->
  day_representable zone now ->
  day_representable zone ms ->
  task.due_date task = Some s ->
  s <> [] ->
  newDate s = Time ms ->
  (localDay zone ms < localDay zone now)%Z ->
  handleTaskSubmit format
    (validation_effect zone now (openTaskModal newDate (Some task) m))
  = Refused invalidForm.
Proof.
  intros M Rn Rd Hs Hne Hd Hlt.
  assert (E : taskForm.due_date
                (taskForm_state (openTaskModal newDate (Some task) m))
              = Some (Time ms)).
  { simpl. rewrite Hs. destruct s; [congruence|]. simpl. now rewrite Hd. }
  apply (handleTaskSubmit_refuses zone format now
           (openTaskModal newDate (Some task) m) M Rn).
  - intros ms' E'. rewrite E in E'. inversion E'; subst. exact Rd.
  - right. exists ms. split; [exact E | exact Hlt].
Qed.

(** New York, noon of 2026-03-08, the day the clocks go forward: a
    task due at 23:30 of the day before. *)
Lemma overdue_task_edit_is_refused_witness :
  handleTaskSubmit (fun _ => Some (lit "2026-03-07T23:30:00.000Z"))
    (validation_effect newYork2026 1772985600000
       (openTaskModal (fun _ => Time 1772944200000)
          (Some (task.mk 1 (lit "Configurar proyecto Rust") None (lit "done")
                   (lit "high") (Some (lit "2026-03-07 23:30:00")) None None))
          initial_modal))
  = Refused invalidForm.
Proof.
  apply (overdue_task_edit_is_refused newYork2026 (fun _ => Time 1772944200000)
           (fun _ => Some (lit "2026-03-07T23:30:00.000Z")) 1772985600000
           (task.mk 1 (lit "Configurar proyecto Rust") None (lit "done")
              (lit "high") (Some (lit "2026-03-07 23:30:00")) None None)
           initial_modal (lit "2026-03-07 23:30:00") 1772944200000
           midnights_ordered_newYork2026).
  - vm_compute. discriminate.
  - vm_compute. discriminate.
  - reflexivity.
  - discriminate.
  - reflexivity.
  - reflexivity.
Defined.

(** X14. Opening a task in the modal and saving it unedited sends a
    [PUT] to that task's id whose body has the task's own title, status
    and priority; a [null] description or tag list is sent as the empty
    string; the assignee is sent as it is, except that a [null], empty
    or ["unassigned"] assignee is sent as the empty string. *)
Theorem edit_unchanged_payload newDate format task m call :
  handleTaskSubmit format (openTaskModal newDate (Some task) m) = Awaiting call ->
  exists body,
    call = axios_put (task.id task) body
    /\ taskData.title body = task.title task
    /\ taskData.status body = task.status task
    /\ taskData.priority body = task.priority task
    /\ taskData.description body = or_else (task.description task) (lit "")
    /\ taskData.tags body = or_else (task.tags task) (lit "")
    /\ taskData.assigned_to body = assignee_sent (task.assigned_to task).
Proof.
  unfold handleTaskSubmit. cbn [openTaskModal formErrors_state taskForm_state editingTask].
  destruct (0 <? formErrors.keys_length (formErrors_state m)); [discriminate|].
  match goal with
  | |- context [build_taskData format ?f] =>
      destruct (build_taskData format f) as [body|] eqn:B; [|discriminate]
  end.
  intros H. inversion H; subst. exists body.
  destruct (build_taskData_fields format _ body B)
    as (F1 & F2 & F3 & F4 & F5 & F6 & _).
  cbn in F1, F2, F3, F4, F5, F6.
  repeat (split; [assumption || reflexivity|]).
  rewrite F6. unfold assignee_sent, or_else.
  destruct (task.assigned_to task) as [a|]; [|reflexivity].
  destruct a as [|c a]; [reflexivity|]. cbn [truthy].
  replace (str_eqb (c :: a) (lit "")) with false
    by (symmetry; apply str_eqb_neq; discriminate).
  reflexivity.
Qed.

Lemma edit_unchanged_payload_witness :
  exists body,
    axios_put 7
      (taskData.mk (lit "Revisar el codigo") [] (lit "todo") (lit "low") None
         (lit "quality,refactor") (lit ""))
    = axios_put 7 body
    /\ taskData.title body = lit "Revisar el codigo".
Proof.
  destruct (edit_unchanged_payload (fun _ => InvalidDate) (fun _ => None)
              (task.mk 7 (lit "Revisar el codigo") None (lit "todo") (lit "low")
                 None (Some (lit "quality,refactor")) None)
              initial_modal
              (axios_put 7
                 (taskData.mk (lit "Revisar el codigo") [] (lit "todo")
                    (lit "low") None (lit "quality,refactor") (lit "")))
              eq_refl) as (body & E & T & _).
  exists body. split; [exact E | exact T].
Defined.

(** X15. What follows the response of a save or a delete. Fulfilled:
    the modal is closed (for a save), and [loadTasks] and
    [loadStatusCounts] are each called once. Rejected: nothing is
    reloaded; after a save the modal is as the user left it, open with
    its input, and the toast shows the server's [detail] when it is a
    non-empty string and the fallback text otherwise; after a delete
    the toast is the fixed delete error, whatever the server said. *)
Theorem mutation_settled call response m :
  let '(m', notice, reloads) := handleTaskSubmit_resume call response m in
  let '(notice_d, reloads_d) := deleteTask_resume response in
  match response with
  | MutationFulfilled =>
      showTaskModal m' = false
      /\ taskForm_state m' = taskForm_state m
      /\ reloads = [call_loadTasks; call_loadStatusCounts]
      /\ reloads_d = [call_loadTasks; call_loadStatusCounts]
      /\ notice_variant notice = None
  | MutationRejected detail =>
      m' = m
      /\ reloads = []
      /\ reloads_d = []
      /\ notice_d = errorDeletingTask
      /\ (forall s, detail = Some s -> s <> [] ->
                    notice_description notice = Verbatim s)
      /\ (detail = None \/ detail = Some [] ->
          notice_description notice = errorSavingTask)
  end.
Proof.
  destruct response as [|detail]; simpl.
  - repeat split. now destruct call.
  - repeat split.
    + intros s -> Hs. simpl. destruct s; [congruence | reflexivity].
    + intros [-> | ->]; reflexivity.
Qed.

(* ================================================================== *)
(** * White space, titles and tags *)

Lemma trimStart_no_leading_space s : no_leading_space (trimStart s).
Proof.
  induction s as [|c s IH]; simpl; [exact I|].
  destruct (isWhiteSpace c) eqn:E; [exact IH | exact E].
Qed.

Lemma trimStart_fixed s : no_leading_space s -> trimStart s = s.
Proof. destruct s as [|c s]; simpl; [reflexivity|]. now intros ->. Qed.

Lemma trimStart_split s :
  exists ws, s = ws ++ trimStart s /\ forallb isWhiteSpace ws = true.
Proof.
  induction s as [|c s (ws & E & H)]; simpl.
  - now exists [].
  - destruct (isWhiteSpace c) eqn:Ec.
    + exists (c :: ws). simpl. rewrite Ec, H. split; [now f_equal | reflexivity].
    + now exists [].
Qed.

Lemma forallb_rev {A} (f : A -> bool) l :
  forallb f (rev l) = forallb f l.
Proof.
  induction l as [|x l IH]; simpl; [reflexivity|].
  rewrite forallb_app, IH. simpl. rewrite andb_true_r. apply andb_comm.
Qed.

Lemma trimStart_app s t :
  trimStart (s ++ t)
  = if forallb isWhiteSpace s then trimStart t else trimStart s ++ t.
Proof.
  induction s as [|c s IH]; simpl; [reflexivity|].
  destruct (isWhiteSpace c); simpl; [exact IH | reflexivity].
Qed.

Lemma trimEnd_spaces s ws :
  forallb isWhiteSpace ws = true -> trimEnd (s ++ ws) = trimEnd s.
Proof.
  intros H. unfold trimEnd. rewrite rev_app_distr, trimStart_spaces; [reflexivity|].
  now rewrite forallb_rev.
Qed.

Lemma trim_padding ws1 s ws2 :
  forallb isWhiteSpace ws1 = true ->
  forallb isWhiteSpace ws2 = true ->
  trim (ws1 ++ s ++ ws2) = trim s.
Proof.
  intros H1 H2. unfold trim. rewrite trimStart_spaces by exact H1.
  rewrite trimStart_app. destruct (forallb isWhiteSpace s) eqn:E.
  - destruct (trimStart_split s) as (ws & Es & Hws).
    assert (T : trimStart s = []).
    { rewrite Es in E. rewrite forallb_app in E. apply andb_prop in E.
      destruct E as [_ E]. pose proof (trimStart_no_leading_space s) as L.
      destruct (trimStart s) as [|c r]; [reflexivity|].
      simpl in E, L. rewrite L in E. discriminate E. }
    rewrite T. pose proof (trimStart_no_leading_space ws2) as L.
    destruct (trimStart_split ws2) as (w & Ew & Hw).
    rewrite Ew in H2. rewrite forallb_app in H2. apply andb_prop in H2.
    destruct H2 as [_ H2].
    destruct (trimStart ws2) as [|c r]; [reflexivity|].
    simpl in H2, L. rewrite L in H2. discriminate H2.
  - now apply trimEnd_spaces.
Qed.

Lemma trim_no_outer_space s :
  no_leading_space (trim s) /\ no_leading_space (rev (trim s)).
Proof.
  unfold trim, trimEnd. rewrite rev_involutive.
  split; [|apply trimStart_no_leading_space].
  pose proof (trimStart_no_leading_space s) as L.
  destruct (trimStart_split (rev (trimStart s))) as (ws & E & _).
  apply (f_equal (@rev BinNums.N)) in E.
  rewrite rev_involutive, rev_app_distr in E.
  destruct (rev (trimStart (rev (trimStart s)))) as [|c r]; [exact I|].
  rewrite E in L. exact L.
Qed.

Lemma trim_idem s : trim (trim s) = trim s.
Proof.
  destruct (trim_no_outer_space s) as [L R].
  unfold trim at 1. rewrite (trimStart_fixed _ L). unfold trimEnd.
  now rewrite (trimStart_fixed _ R), rev_involutive.
Qed.

(** X16. Validation measures the title without the white space
    around it, while the request carries the title as typed: padding a
    title with white space on either side changes neither verdict of
    the validation effect, and the body built by [handleTaskSubmit]
    holds the padded title. *)
Theorem padded_title zone format now ws1 title ws2 de st pr du tg asg body :
  forallb isWhiteSpace ws1 = true ->
  forallb isWhiteSpace ws2 = true ->
  build_taskData format (taskForm.mk (ws1 ++ title ++ ws2) de st pr du tg asg)
  = Some body ->
  validate zone now (taskForm.mk (ws1 ++ title ++ ws2) de st pr du tg asg)
  = validate zone now (taskForm.mk title de st pr du tg asg)
  /\ taskData.title body = ws1 ++ title ++ ws2.
Proof.
  intros H1 H2 B. split.
  - unfold validate. cbn [taskForm.title taskForm.due_date].
    now rewrite trim_padding.
  - now apply build_taskData_fields in B.
Qed.

Lemma padded_title_witness :
  validate (fixedZone 0) 0 (draft (lit "  " ++ lit "abc" ++ repeat 32%N 200) None)
  = validate (fixedZone 0) 0 (draft (lit "abc") None)
  /\ taskData.title
       (taskData.mk (lit "  " ++ lit "abc" ++ repeat 32%N 200) []
          (lit "todo") (lit "med") None [] (lit ""))
     = lit "  " ++ lit "abc" ++ repeat 32%N 200.
Proof.
  apply (padded_title (fixedZone 0) (fun _ => None) 0 (lit "  ") (lit "abc") (repeat 32%N 200)
           [] (lit "todo") (lit "med") None [] (lit "unassigned")); reflexivity.
Defined.

Lemma split_comma_length s :
  List.length (split_comma s) = S (count_occ N.eq_dec s 44%N).
Proof.
  induction s as [|c s IH]; simpl; [reflexivity|].
  destruct (N.eqb_spec c 44) as [->|Hc].
  - simpl. destruct (N.eq_dec 44 44); [now rewrite IH | congruence].
  - destruct (N.eq_dec c 44); [congruence|].
    destruct (split_comma s); simpl in *; [discriminate IH | exact IH].
Qed.

Lemma split_comma_join s :
  exists p ps, split_comma s = p :: ps
               /\ s = p ++ List.concat (map (cons 44%N) ps).
Proof.
  induction s as [|c s (p & ps & E & IH)]; simpl.
  - exists [], []. now split.
  - destruct (N.eqb_spec c 44) as [->|Hc].
    + exists [], (p :: ps). rewrite E. simpl. split; [reflexivity | now f_equal].
    + rewrite E. exists (c :: p), ps. split; [reflexivity | simpl; now f_equal].
Qed.

(** X17. The tag badges of a task: none when [tags] is [null] or
    empty; otherwise one badge per comma plus one (empty pieces give
    empty badges), no badge begins or ends with white space, and the
    pieces joined by commas give back [tags]. *)
Theorem tag_badges_spec tags :
  match tags with
  | None | Some [] => tag_badges tags = []
  | Some s =>
      List.length (tag_badges tags) = S (count_occ N.eq_dec s 44%N)
      /\ Forall (fun b => no_leading_space b /\ no_leading_space (rev b)
                          /\ trim b = b) (tag_badges tags)
      /\ exists p ps,
           tag_badges tags = map trim (p :: ps)
           /\ s = p ++ List.concat (map (cons 44%N) ps)
  end.
Proof.
  destruct tags as [[|c s]|]; try reflexivity.
  unfold tag_badges. cbn [truthy].
  split; [now rewrite length_map, split_comma_length|].
  split.
  2:{ destruct (split_comma_join (c :: s)) as (p & ps & E & J).
      exists p, ps. now rewrite E. }
  apply Forall_forall. intros b Hb. apply in_map_iff in Hb.
  destruct Hb as (p & <- & _).
  destruct (trim_no_outer_space p) as [L R].
  repeat split; [exact L | exact R | apply trim_idem].
Qed.

Example tag_badges_example :
  tag_badges (Some (lit "rust, setup ,,backend"))
  = [lit "rust"; lit "setup"; lit ""; lit "backend"].
Proof. reflexivity. Qed.

(* ================================================================== *)
(** * Status counts and presentation helpers *)

Lemma statusCounts_fold rs c :
  statusCounts.total c
  = js_add (js_add (statusCounts.todo c) (statusCounts.doing c)) (statusCounts.done c) ->
  let c' := fold_left (fun counts response => loadStatusCounts_resume response counts)
              rs c in
  statusCounts.total c'
  = js_add (js_add (statusCounts.todo c') (statusCounts.doing c')) (statusCounts.done c').
Proof.
  revert c. induction rs as [|r rs IH]; intros c H; simpl; [exact H|].
  apply IH. destruct r; [reflexivity | exact H].
Qed.

(** X18. Whatever responses [loadStatusCounts] has received, the
    total shown is the sum of the three counts shown; the counts are
    those of the last fulfilled response, and rejected requests, which
    are only logged, leave them as they were. *)
Theorem statusCounts_total_is_sum responses :
  let c := statusCounts_after responses in
  statusCounts.total c
  = js_add (js_add (statusCounts.todo c) (statusCounts.doing c)) (statusCounts.done c)
  /\ (forall rs data n,
         responses = rs ++ Some data :: repeat None n ->
         statusCounts.todo c = stats_todo data
         /\ statusCounts.doing c = stats_doing data
         /\ statusCounts.done c = stats_done data)
  /\ (Forall (fun r => r = None) responses -> c = initial_statusCounts).
Proof.
  split; [|split].
  - apply statusCounts_fold. reflexivity.
  - intros rs data n ->. unfold statusCounts_after.
    rewrite fold_left_app. simpl.
    generalize (loadStatusCounts_resume (Some data)
                  (fold_left (fun counts response =>
                                loadStatusCounts_resume response counts)
                     rs initial_statusCounts)).
    intros c0. unfold loadStatusCounts_resume at 1. simpl.
    assert (G : forall c1,
               fold_left (fun counts response =>
                            loadStatusCounts_resume response counts)
                 (repeat None n) c1 = c1).
    { induction n as [|n IH]; intros c1; simpl; [reflexivity | apply IH]. }
    rewrite !G. repeat split.
  - unfold statusCounts_after. generalize initial_statusCounts.
    induction responses as [|r rs IH]; intros c0 H; simpl; [reflexivity|].
    inversion H; subst. now apply IH.
Qed.

Lemma statusCounts_total_is_sum_witness :
  statusCounts.todo
    (statusCounts_after
       ([None; Some (mkStatsData (Num 1) (Num 1) (Num 1))]
        ++ Some (mkStatsData (Num 7) (Num 3) (Num 2)) :: repeat None 2))
  = Num 7.
Proof.
  apply (statusCounts_total_is_sum
           ([None; Some (mkStatsData (Num 1) (Num 1) (Num 1))]
            ++ Some (mkStatsData (Num 7) (Num 3) (Num 2)) :: repeat None 2))
    with (rs := [None; Some (mkStatsData (Num 1) (Num 1) (Num 1))])
         (data := mkStatsData (Num 7) (Num 3) (Num 2)) (n := 2).
  reflexivity.
Defined.

(** X19. A status other than ["doing"] and ["done"] is drawn exactly
    as ["todo"]: the same icon and the same colours. A priority other
    than ["high"] and ["med"] is labelled low; when it is not ["low"]
    either, the label is still low but the colours are the neutral
    ones of an unknown value, not those of ["low"]. *)
Theorem unknown_values_fall_back v :
  (v <> lit "doing" -> v <> lit "done" ->
   getStatusIcon v = getStatusIcon (lit "todo")
   /\ getStatusColor v = getStatusColor (lit "todo"))
  /\ (v <> lit "high" -> v <> lit "med" ->
      priority_label v = priority_label (lit "low")
      /\ (v <> lit "low" ->
          getPriorityColor v = getStatusColor (lit "todo")
          /\ getPriorityColor v <> getPriorityColor (lit "low"))).
Proof.
  split.
  - intros H1 H2. apply str_eqb_neq in H1, H2.
    unfold getStatusIcon, getStatusColor. rewrite H1, H2.
    destruct (str_eqb v (lit "todo")); split; reflexivity.
  - intros H1 H2. apply str_eqb_neq in H1, H2.
    unfold priority_label, getPriorityColor. rewrite H1, H2.
    split; [reflexivity|]. intros H3. apply str_eqb_neq in H3. rewrite H3.
    split; [reflexivity | discriminate].
Qed.

Lemma unknown_values_fall_back_witness :
  getStatusIcon (lit "blocked") = getStatusIcon (lit "todo")
  /\ getStatusColor (lit "blocked") = getStatusColor (lit "todo").
Proof.
  apply (unknown_values_fall_back (lit "blocked")); discriminate.
Defined.

(* ================================================================== *)
(** * Authentication and routes *)

Lemma getItem_removeItem k key s :
  getItem k (removeItem key s) = if str_eqb k key then None else getItem k s.
Proof. reflexivity. Qed.

Lemma getItem_setItem k key v s :
  getItem k (setItem key v s) = if str_eqb k key then Some v else getItem k s.
Proof. reflexivity. Qed.

Lemma credentials_removed s :
  let s' := removeItem (lit "user") (removeItem (lit "token") s) in
  getItem (lit "token") s' = None
  /\ getItem (lit "user") s' = None
  /\ request_interceptor s' = None
  /\ (forall k, k <> lit "token" -> k <> lit "user" -> getItem k s' = getItem k s).
Proof.
  repeat split.
  intros k H1 H2. apply str_eqb_neq in H1, H2.
  now rewrite !getItem_removeItem, H1, H2.
Qed.

(** X20. [logout], and a response with status 401, remove the token
    and the saved user from the storage and nothing else: from then on
    the request interceptor sets no [Authorization] header, and the
    next page load finds no user, so [/dashboard] and [/admin] lead to
    the login page. A failed response with another status leaves the
    state as it is. *)
Theorem credentials_cleared JSON_parse a a' :
  a' = logout a \/ a' = response_interceptor_error (Some 401%Z) a ->
  getItem (lit "token") (localStorage a') = None
  /\ getItem (lit "user") (localStorage a') = None
  /\ request_interceptor (localStorage a') = None
  /\ (forall k, k <> lit "token" -> k <> lit "user" ->
                getItem k (localStorage a') = getItem k (localStorage a))
  /\ user_state (page_load JSON_parse (localStorage a')) = None
  /\ settle_route 3 (lit "/dashboard") (page_load JSON_parse (localStorage a'))
     = Some (Some LoginPage)
  /\ settle_route 3 (lit "/admin") (page_load JSON_parse (localStorage a'))
     = Some (Some LoginPage)
  /\ (forall status, status <> Some 401%Z ->
                     response_interceptor_error status a = a).
Proof.
  intros H.
  assert (E : localStorage a'
              = removeItem (lit "user") (removeItem (lit "token") (localStorage a)))
    by (destruct H as [-> | ->]; reflexivity).
  rewrite E. destruct (credentials_removed (localStorage a)) as (C1 & C2 & C3 & C4).
  repeat split; try assumption.
  intros status Hs. destruct status as [z|]; [|reflexivity].
  destruct z as [|p|p]; try reflexivity.
  unfold response_interceptor_error.
  destruct (Pos.eq_dec p 401) as [->|Hp]; [congruence|].
  do 9 (destruct p as [p|p|]; try reflexivity); congruence.
Qed.

Lemma credentials_cleared_witness :
  request_interceptor
    (localStorage
       (logout (mkAuth (Some (user.mk (lit "Admin User") (lit "admin@admin.com")
                                (lit "admin")))
                  false
                  (setItem (lit "token") (lit "abc.def.ghi") (fun _ => None))
                  None [])))
  = None.
Proof.
  apply (credentials_cleared (fun _ => None)
           (mkAuth (Some (user.mk (lit "Admin User") (lit "admin@admin.com")
                            (lit "admin")))
              false (setItem (lit "token") (lit "abc.def.ghi") (fun _ => None))
              None [])).
  left. reflexivity.
Defined.

(** X21. After a fulfilled login with a non-empty token, requests
    carry [Authorization: Bearer <token>], and a later page load
    restores the same user from the storage, provided [JSON.parse]
    reads back what [JSON.stringify] wrote for that user. *)
Theorem session_survives_reload JSON_stringify JSON_parse token userData a :
  token <> [] ->
  JSON_stringify userData <> [] ->
  JSON_parse (JSON_stringify userData) = Some userData ->
  let a' := fst (login_resume JSON_stringify (inl (token, userData)) a) in
  user_state a' = Some userData
  /\ request_interceptor (localStorage a') = Some (lit "Bearer " ++ token)
  /\ user_state (page_load JSON_parse (localStorage a')) = Some userData
  /\ auth_loading (page_load JSON_parse (localStorage a')) = false.
Proof.
  intros Ht Hs Hp a'. subst a'. simpl.
  unfold request_interceptor, page_load, AuthProvider_mount. simpl.
  unfold getItem, setItem. eval_keys. simpl.
  destruct token as [|c tk]; [congruence|].
  destruct (JSON_stringify userData) as [|c' js] eqn:E; [congruence|].
  simpl. rewrite Hp. repeat split.
Qed.

Lemma session_survives_reload_witness :
  user_state
    (page_load (fun _ => Some (user.mk (lit "Ana") (lit "ana@x.io") (lit "user")))
       (localStorage
          (fst (login_resume (fun _ => lit "{}")
                  (inl (lit "tok", user.mk (lit "Ana") (lit "ana@x.io") (lit "user")))
                  (mkAuth None false (fun _ => None) None [])))))
  = Some (user.mk (lit "Ana") (lit "ana@x.io") (lit "user")).
Proof.
  apply (session_survives_reload (fun _ => lit "{}")
           (fun _ => Some (user.mk (lit "Ana") (lit "ana@x.io") (lit "user")))
           (lit "tok") (user.mk (lit "Ana") (lit "ana@x.io") (lit "user"))
           (mkAuth None false (fun _ => None) None [])).
  - discriminate.
  - discriminate.
  - reflexivity.
Defined.

(** X22. A page load with a damaged storage. When the token and the
    saved user are both present but the saved user does not parse, both
    are removed and nobody is logged in. When only one of the two is
    present, nobody is logged in either, but the storage is left as it
    is: a token without a saved user stays, and the request interceptor
    keeps sending it. *)
Theorem page_load_with_damaged_storage JSON_parse s :
  (present (getItem (lit "token") s) = true ->
   forall saved, getItem (lit "user") s = Some saved -> saved <> [] ->
   JSON_parse saved = None ->
   user_state (page_load JSON_parse s) = None
   /\ getItem (lit "token") (localStorage (page_load JSON_parse s)) = None
   /\ getItem (lit "user") (localStorage (page_load JSON_parse s)) = None)
  /\ (present (getItem (lit "token") s) && present (getItem (lit "user") s) = false ->
      user_state (page_load JSON_parse s) = None
      /\ localStorage (page_load JSON_parse s) = s
      /\ request_interceptor (localStorage (page_load JSON_parse s))
         = request_interceptor s)
  /\ auth_loading (page_load JSON_parse s) = false.
Proof.
  unfold page_load, AuthProvider_mount. simpl. split; [|split].
  - intros Ht saved Hu Hne Hp. rewrite Ht, Hu. simpl.
    destruct saved; [congruence|]. simpl. rewrite Hp. simpl. repeat split.
  - intros H. rewrite H. repeat split.
  - reflexivity.
Qed.

Lemma page_load_with_damaged_storage_witness :
  request_interceptor
    (localStorage
       (page_load (fun _ => None)
          (setItem (lit "token") (lit "stale") (fun _ => None))))
  = request_interceptor (setItem (lit "token") (lit "stale") (fun _ => None)).
Proof.
  apply (page_load_with_damaged_storage (fun _ => None)
           (setItem (lit "token") (lit "stale") (fun _ => None))).
  reflexivity.
Defined.

Lemma settle_root fuel a :
  settle_route (S fuel) (lit "/") a = settle_route fuel (lit "/dashboard") a.
Proof. reflexivity. Qed.

Lemma settle_dashboard fuel a :
  settle_route (S fuel) (lit "/dashboard") a
  = if isAuthenticated a then Some (Some DashboardPage)
    else settle_route fuel (lit "/login") a.
Proof.
  simpl. unfold route. eval_keys. unfold ProtectedRoute.
  now destruct (isAuthenticated a).
Qed.

Lemma settle_admin fuel a :
  settle_route (S fuel) (lit "/admin") a
  = if isAuthenticated a then
      if isAdmin a then Some (Some AdminDashboardPage)
      else settle_route fuel (lit "/dashboard") a
    else settle_route fuel (lit "/login") a.
Proof.
  simpl. unfold route. eval_keys. unfold ProtectedRoute.
  destruct (isAuthenticated a); [|reflexivity]. now destruct (isAdmin a).
Qed.

Lemma settle_login fuel a :
  settle_route (S fuel) (lit "/login") a
  = if isAuthenticated a then settle_route fuel (lit "/dashboard") a
    else Some (Some LoginPage).
Proof.
  simpl. unfold route. eval_keys. simpl. now destruct (isAuthenticated a).
Qed.

Lemma settle_register fuel a :
  settle_route (S fuel) (lit "/register") a
  = if isAuthenticated a then settle_route fuel (lit "/dashboard") a
    else Some (Some RegisterPage).
Proof.
  simpl. unfold route. eval_keys. simpl. now destruct (isAuthenticated a).
Qed.

Lemma isAdmin_role a :
  isAdmin a = true ->
  exists u, user_state a = Some u /\ user.role u = lit "admin".
Proof.
  unfold isAdmin. destruct (user_state a) as [u|]; [|discriminate].
  intros H. apply str_eqb_eq in H. now exists u.
Qed.

Ltac settle_steps :=
  repeat (rewrite ?settle_root, ?settle_dashboard, ?settle_admin,
            ?settle_login, ?settle_register;
          repeat match goal with
                 | H : isAuthenticated _ = _ |- _ => rewrite H
                 | H : isAdmin _ = _ |- _ => rewrite H
                 end;
          cbv iota).

Ltac settle_facts :=
  repeat split; try discriminate; try (intros [?|?]; discriminate);
  try reflexivity; try assumption; try (intros _; assumption).

(** X23. A visit of one of the five route paths, written as the
    application writes them, comes to rest on a page after at most two
    redirects: there is no redirect loop. The admin page is shown only
    to a user whose role is ["admin"], the dashboard only to a logged-in
    user, and the login and registration pages only to a visitor who is
    not logged in. *)
Theorem routes_settle path a :
  In path route_paths ->
  exists page,
    settle_route 3 path a = Some (Some page)
    /\ (forall fuel, 3 <= fuel -> settle_route fuel path a = Some (Some page))
    /\ (page = AdminDashboardPage ->
        exists u, user_state a = Some u /\ user.role u = lit "admin")
    /\ (page = DashboardPage -> isAuthenticated a = true)
    /\ (page = LoginPage \/ page = RegisterPage -> isAuthenticated a = false).
Proof.
  intros Hpath. unfold route_paths in Hpath. simpl in Hpath.
  destruct (isAuthenticated a) eqn:Ha; destruct (isAdmin a) eqn:Hadm;
    destruct Hpath as [<-|[<-|[<-|[<-|[<-|[]]]]]].
  all: eexists; split; [settle_steps; reflexivity|];
    (split; [intros [|[|[|f]]] Hf; try lia; settle_steps; reflexivity|]);
    settle_facts.
  all: try (intros _; now apply isAdmin_role).
  all: try (unfold isAdmin, isAuthenticated in *;
            destruct (user_state a); discriminate).
Qed.

(** A logged-in user who is not an administrator asks for the admin
    page and lands on the dashboard. *)
Lemma routes_settle_witness :
  settle_route 3 (lit "/admin")
    (mkAuth (Some (user.mk (lit "Ana") (lit "ana@example.com") (lit "user")))
       false (fun _ => None) None [])
  = Some (Some DashboardPage).
Proof.
  destruct (routes_settle (lit "/admin")
              (mkAuth (Some (user.mk (lit "Ana") (lit "ana@example.com")
                               (lit "user")))
                 false (fun _ => None) None []))
    as (page & H & _).
  - simpl. tauto.
  - assert (E : page = DashboardPage) by (vm_compute in H; now inversion H).
    rewrite H, E. reflexivity.
Defined.

(* ================================================================== *)
(** * The registration form *)

Lemma lang_cat_inv r1 r2 s :
  lang (Cat r1 r2) s -> exists s1 s2, s = s1 ++ s2 /\ lang r1 s1 /\ lang r2 s2.
Proof. intros H. inversion H; subst. eauto. Qed.

Lemma lang_alt_inv r1 r2 s : lang (Alt r1 r2) s -> lang r1 s \/ lang r2 s.
Proof. intros H. inversion H; subst; auto. Qed.

Lemma lang_unit_inv p s : lang (Unit p) s <-> exists c, s = [c] /\ p c = true.
Proof.
  split.
  - intros H. inversion H; subst. eauto.
  - intros (c & -> & H). now constructor.
Qed.

Lemma nullable_lang r : nullable r = true <-> lang r [].
Proof.
  induction r as [| |p|r1 IH1 r2 IH2|r1 IH1 r2 IH2|r IH]; simpl.
  - split; [discriminate | intros H; inversion H].
  - split; [constructor | reflexivity].
  - split; [discriminate | intros H; inversion H].
  - rewrite andb_true_iff, IH1, IH2. split.
    + intros [H1 H2]. apply (lang_cat r1 r2 [] [] H1 H2).
    + intros H. apply lang_cat_inv in H. destruct H as (s1 & s2 & E & H1 & H2).
      symmetry in E. apply app_eq_nil in E. destruct E; subst. now split.
  - rewrite orb_true_iff, IH1, IH2. split.
    + intros [H|H]; [now apply lang_alt_l | now apply lang_alt_r].
    + apply lang_alt_inv.
  - split; [constructor | reflexivity].
Qed.

Lemma lang_star_head_gen r' s' :
  lang r' s' ->
  forall r c s, r' = Star r -> s' = c :: s ->
  exists s1 s2, s = s1 ++ s2 /\ lang r (c :: s1) /\ lang (Star r) s2.
Proof.
  induction 1 as [| | | | | |r0 t1 t2 H1 _ H2 IH2]; intros rr cc ss Er Es;
    try discriminate.
  inversion Er; subst r0. destruct t1 as [|c1 t1]; simpl in Es.
  - now apply IH2.
  - inversion Es; subst. now exists t1, t2.
Qed.

Lemma lang_star_head r c s :
  lang (Star r) (c :: s) ->
  exists s1 s2, s = s1 ++ s2 /\ lang r (c :: s1) /\ lang (Star r) s2.
Proof. intros H. now apply (lang_star_head_gen _ _ H). Qed.

Lemma deriv_lang c r : forall s, lang (deriv c r) s <-> lang r (c :: s).
Proof.
  induction r as [| |p|r1 IH1 r2 IH2|r1 IH1 r2 IH2|r IH]; intros s; simpl.
  - split; intros H; inversion H.
  - split; intros H; inversion H.
  - destruct (p c) eqn:E; split; intros H.
    + inversion H; subst. now constructor.
    + apply lang_unit_inv in H. destruct H as (x & Ex & _).
      inversion Ex; subst. constructor.
    + inversion H.
    + apply lang_unit_inv in H. destruct H as (x & Ex & Hx).
      inversion Ex; subst. congruence.
  - assert (F : lang (Cat (deriv c r1) r2) s -> lang (Cat r1 r2) (c :: s)).
    { intros H. apply lang_cat_inv in H. destruct H as (s1 & s2 & -> & H1 & H2).
      apply IH1 in H1. apply (lang_cat r1 r2 (c :: s1) s2 H1 H2). }
    assert (B : lang (Cat r1 r2) (c :: s) ->
                lang (Cat (deriv c r1) r2) s
                \/ (lang r1 [] /\ lang (deriv c r2) s)).
    { intros H. apply lang_cat_inv in H. destruct H as (s1 & s2 & E & H1 & H2).
      destruct s1 as [|c1 s1]; simpl in E.
      - right. subst s2. split; [exact H1 | now apply IH2].
      - left. inversion E; subst. apply IH1 in H1. now constructor. }
    destruct (nullable r1) eqn:Hn.
    + split.
      * intros H. apply lang_alt_inv in H. destruct H as [H|H]; [now apply F|].
        apply (lang_cat r1 r2 [] (c :: s));
          [now apply nullable_lang | now apply IH2].
      * intros H. destruct (B H) as [H'|[_ H']];
          [now apply lang_alt_l | now apply lang_alt_r].
    + split; [exact F|]. intros H. destruct (B H) as [H'|[H' _]]; [exact H'|].
      apply nullable_lang in H'. congruence.
  - split; intros H; apply lang_alt_inv in H; destruct H as [H|H].
    + apply lang_alt_l. now apply IH1.
    + apply lang_alt_r. now apply IH2.
    + apply lang_alt_l. now apply IH1.
    + apply lang_alt_r. now apply IH2.
  - split.
    + intros H. apply lang_cat_inv in H. destruct H as (s1 & s2 & -> & H1 & H2).
      apply IH in H1. apply (lang_star_app r (c :: s1) s2 H1 H2).
    + intros H. apply lang_star_head in H. destruct H as (s1 & s2 & -> & H1 & H2).
      constructor; [now apply IH | exact H2].
Qed.

Lemma regex_test_lang s : forall r, regex_test r s = true <-> lang r s.
Proof.
  induction s as [|c s IH]; intros r; simpl.
  - apply nullable_lang.
  - rewrite IH. apply deriv_lang.
Qed.

Lemma lang_star_unit_gen r s :
  lang r s -> forall p, r = Star (Unit p) -> forallb p s = true.
Proof.
  induction 1 as [| | | | | |r0 t1 t2 H1 _ H2 IH2]; intros qq Er;
    try discriminate; [reflexivity|].
  inversion Er; subst r0. apply lang_unit_inv in H1.
  destruct H1 as (x & -> & Hx). simpl. now rewrite Hx, (IH2 qq eq_refl).
Qed.

Lemma lang_star_unit p s : lang (Star (Unit p)) s <-> forallb p s = true.
Proof.
  split.
  - intros H. now apply (lang_star_unit_gen _ _ H).
  - induction s as [|c s IH]; simpl; [constructor|].
    intros H. apply andb_prop in H. destruct H as [Hc Hs].
    apply (lang_star_app (Unit p) [c] s); [now constructor | now apply IH].
Qed.

Lemma lang_plus_unit p s :
  lang (Plus (Unit p)) s <-> s <> [] /\ forallb p s = true.
Proof.
  unfold Plus. split.
  - intros H. apply lang_cat_inv in H. destruct H as (s1 & s2 & -> & H1 & H2).
    apply lang_unit_inv in H1. destruct H1 as (x & -> & Hx).
    apply lang_star_unit in H2. simpl.
    split; [discriminate | now rewrite Hx, H2].
  - intros [Hne H]. destruct s as [|c s]; [congruence|].
    simpl in H. apply andb_prop in H. destruct H as [Hc Hs].
    apply (lang_cat (Unit p) (Star (Unit p)) [c] s);
      [now constructor | now apply lang_star_unit].
Qed.

(** X24. The e-mail test of the registration form accepts exactly the
    strings of the form [a @ b . c] where [a], [b] and [c] are not
    empty and hold neither white space nor [@]: one [@] only, and a dot
    after it with something on both sides. *)
Theorem email_pattern_accepts s :
  regex_test emailPattern s = true
  <-> exists a b c,
        s = a ++ [64%N] ++ b ++ [46%N] ++ c
        /\ a <> [] /\ b <> [] /\ c <> []
        /\ forallb not_space_nor_at (a ++ b ++ c) = true.
Proof.
  rewrite regex_test_lang. unfold emailPattern. split.
  - intros H.
    apply lang_cat_inv in H. destruct H as (a & s1 & -> & Ha & H).
    apply lang_cat_inv in H. destruct H as (at_ & s2 & -> & Hat & H).
    apply lang_cat_inv in H. destruct H as (b & s3 & -> & Hb & H).
    apply lang_cat_inv in H. destruct H as (dot & c & -> & Hdot & Hc).
    apply lang_plus_unit in Ha, Hb, Hc.
    apply lang_unit_inv in Hat, Hdot.
    destruct Hat as (x & -> & Hx). destruct Hdot as (y & -> & Hy).
    apply N.eqb_eq in Hx, Hy. subst x y.
    destruct Ha as [Na Fa], Hb as [Nb Fb], Hc as [Nc Fc].
    exists a, b, c. repeat split; try assumption.
    now rewrite !forallb_app, Fa, Fb, Fc.
  - intros (a & b & c & -> & Na & Nb & Nc & F).
    rewrite !forallb_app in F. apply andb_prop in F. destruct F as [Fa F].
    apply andb_prop in F. destruct F as [Fb Fc].
    apply lang_cat; [now apply lang_plus_unit|].
    apply lang_cat; [now constructor|].
    apply lang_cat; [now apply lang_plus_unit|].
    apply lang_cat; [now constructor | now apply lang_plus_unit].
Qed.

Example email_ok : regex_test emailPattern (lit "ana.b@mail.example.org") = true.
Proof. reflexivity. Qed.

Example email_no_dot : regex_test emailPattern (lit "ana@localhost") = false.
Proof. reflexivity. Qed.

Example email_two_ats : regex_test emailPattern (lit "a@b@c.d") = false.
Proof. reflexivity. Qed.

Example email_leading_space : regex_test emailPattern (lit " ana@mail.org") = false.
Proof. reflexivity. Qed.

Lemma count_zero o : registerErrors.count o = 0 <-> o = None.
Proof. destruct o; simpl; split; intros; try discriminate; try lia; reflexivity. Qed.

Lemma lang_email_head s :
  lang emailPattern s ->
  exists c rest, s = c :: rest /\ isWhiteSpace c = false /\ forallb not_space_nor_at [c] = true.
Proof.
  unfold emailPattern. intros H.
  apply lang_cat_inv in H. destruct H as (a & s1 & -> & Ha & _).
  apply lang_plus_unit in Ha. destruct Ha as [Na Fa].
  destruct a as [|c a]; [congruence|]. simpl in Fa.
  apply andb_prop in Fa. destruct Fa as [Fc _].
  exists c, (a ++ s1). split; [reflexivity|]. split.
  - unfold not_space_nor_at in Fc. apply andb_prop in Fc.
    destruct Fc as [Fc _]. now apply negb_true_iff in Fc.
  - simpl. now rewrite Fc.
Qed.

Lemma trim_nonempty c rest :
  isWhiteSpace c = false -> truthy (trim (c :: rest)) = true.
Proof.
  intros Hc. unfold trim. cbn [trimStart]. rewrite Hc.
  unfold trimEnd.
  destruct (trimStart_split (rev (c :: rest))) as (ws & E & Hws).
  destruct (trimStart (rev (c :: rest))) as [|x r] eqn:T.
  - exfalso. rewrite app_nil_r in E.
    assert (Hin : In c (rev (c :: rest))) by (apply in_rev; rewrite rev_involutive; now left).
    rewrite E in Hin. rewrite forallb_forall in Hws.
    apply Hws in Hin. congruence.
  - simpl. destruct (rev r); reflexivity.
Qed.

Lemma email_test_nonblank s :
  regex_test emailPattern s = true -> truthy (trim s) = true.
Proof.
  intros H. apply regex_test_lang in H. apply lang_email_head in H.
  destruct H as (c & rest & -> & Hc & _). now apply trim_nonempty.
Qed.

Lemma name_error_none data :
  registerErrors.name (validateForm data) = None
  <-> 2 <= List.length (trim (formData.name data)).
Proof.
  unfold validateForm. cbn [registerErrors.name].
  destruct (trim (formData.name data)) as [|c r]; simpl.
  - split; [discriminate | lia].
  - destruct r; simpl; split; intros; try discriminate; try lia; reflexivity.
Qed.

Lemma email_error_none data :
  registerErrors.email (validateForm data) = None
  <-> regex_test emailPattern (formData.email data) = true.
Proof.
  unfold validateForm. cbn [registerErrors.email].
  destruct (regex_test emailPattern (formData.email data)) eqn:E.
  - rewrite (email_test_nonblank _ E). simpl. now split.
  - destruct (truthy (trim (formData.email data))); simpl;
      split; intros; discriminate.
Qed.

Lemma password_error_none data :
  registerErrors.password (validateForm data) = None
  <-> 8 <= List.length (formData.password data).
Proof.
  unfold validateForm. cbn [registerErrors.password].
  destruct (formData.password data) as [|c r] eqn:E; simpl.
  - split; [discriminate | lia].
  - destruct (Nat.ltb_spec (S (List.length r)) 8);
      split; intros; try discriminate; try lia; reflexivity.
Qed.

Lemma confirm_error_none data :
  registerErrors.confirmPassword (validateForm data) = None
  <-> formData.confirmPassword data <> []
      /\ formData.password data = formData.confirmPassword data.
Proof.
  unfold validateForm. cbn [registerErrors.confirmPassword].
  destruct (formData.confirmPassword data) as [|c r] eqn:E; simpl.
  - split; [discriminate | intros [H _]; congruence].
  - destruct (str_eqb (formData.password data) (c :: r)) eqn:Q; simpl.
    + apply str_eqb_eq in Q. split; [|reflexivity].
      intros _. split; [discriminate | exact Q].
    + apply str_eqb_neq in Q. split; [discriminate|]. intros [_ H]. congruence.
Qed.

(** X25. The registration form calls [register] exactly when the
    trimmed name has at least 2 code units, the e-mail passes the
    pattern, the password has at least 8 code units and the
    confirmation equals the password; the call then carries the name,
    the e-mail and the password as typed, the name untrimmed.
    Otherwise nothing is sent and at least one error is set. *)
Theorem register_submit_iff_valid data :
  let valid :=
    2 <= List.length (trim (formData.name data))
    /\ regex_test emailPattern (formData.email data) = true
    /\ 8 <= List.length (formData.password data)
    /\ formData.confirmPassword data = formData.password data in
  (valid ->
   register_handleSubmit data
   = (registerErrors.mk None None None None,
      Some (formData.name data, formData.email data, formData.password data)))
  /\ (~ valid ->
      snd (register_handleSubmit data) = None
      /\ 0 < registerErrors.keys_length (fst (register_handleSubmit data))).
Proof.
  intros valid. subst valid.
  pose proof (name_error_none data) as Hn.
  pose proof (email_error_none data) as He.
  pose proof (password_error_none data) as Hp.
  pose proof (confirm_error_none data) as Hc.
  unfold register_handleSubmit.
  destruct (validateForm data) as [en ee ep ec] eqn:V.
  cbn [registerErrors.name registerErrors.email registerErrors.password
       registerErrors.confirmPassword] in Hn, He, Hp, Hc.
  split.
  - intros (V1 & V2 & V3 & V4).
    apply Hn in V1. apply He in V2.
    assert (C : ec = None).
    { apply Hc. split; [|now symmetry].
      rewrite V4. intros N. rewrite N in V3. simpl in V3. lia. }
    apply Hp in V3. subst. reflexivity.
  - intros NV. unfold registerErrors.keys_length.
    cbn [registerErrors.name registerErrors.email registerErrors.password
         registerErrors.confirmPassword].
    destruct en, ee, ep, ec; simpl; try (split; [reflexivity | lia]).
    exfalso. apply NV.
    destruct Hn as [Hn _], He as [He _], Hp as [Hp _], Hc as [Hc _].
    specialize (Hc eq_refl). destruct Hc as [_ Hc].
    repeat split; auto.
Qed.

Lemma register_submit_iff_valid_witness :
  register_handleSubmit
    (formData.mk (lit " Ana ") (lit "ana@mail.org") (lit "s3cretpw") (lit "s3cretpw"))
  = (registerErrors.mk None None None None,
     Some (lit " Ana ", lit "ana@mail.org", lit "s3cretpw")).
Proof.
  apply (register_submit_iff_valid
           (formData.mk (lit " Ana ") (lit "ana@mail.org") (lit "s3cretpw")
              (lit "s3cretpw"))).
  repeat split; vm_compute; lia.
Defined.

(* ================================================================== *)
(** * Users pagination of the admin panel *)

(** X26. In the admin panel, from a page [p] with
    [1 <= p <= total_pages], any sequence of clicks on Previous and
    Next, also clicks that land before the view re-renders, keeps the
    page within [1, total_pages]; [total_pages], [per_page] and
    [total] are not touched. *)
Theorem users_pagination_in_bounds clicks : forall pg p T,
  pagination.page pg = Num p ->
  pagination.total_pages pg = Num T ->
  (1 <= p <= T)%Z ->
  let pg' := fold_left users_click clicks pg in
  (exists q, pagination.page pg' = Num q /\ (1 <= q <= T)%Z)
  /\ pagination.total_pages pg' = Num T
  /\ pagination.per_page pg' = pagination.per_page pg
  /\ pagination.total pg' = pagination.total pg.
Proof.
  induction clicks as [|c clicks IH]; intros pg p T Hp HT Hb; simpl.
  - split; [now exists p | now repeat split].
  - assert (S : exists q, pagination.page (users_click pg c) = Num q
                          /\ (1 <= q <= T)%Z).
    { destruct c; simpl; rewrite Hp, ?HT; simpl; eexists; split;
        try reflexivity; lia. }
    destruct S as (q & Hq & Hqb).
    assert (HT' : pagination.total_pages (users_click pg c) = Num T)
      by (destruct c; exact HT).
    destruct (IH (users_click pg c) q T Hq HT' Hqb) as (Q & T' & PP & TT).
    split; [exact Q|]. split; [exact T'|].
    split; [rewrite PP | rewrite TT]; now destruct c.
Qed.

Lemma users_pagination_in_bounds_witness :
  exists q,
    pagination.page
      (fold_left users_click [UsersNext; UsersNext; UsersNext; UsersPrevious]
         (pagination.mk (Num 2) (Num 10) (Num 25) (Num 3)))
    = Num q /\ (1 <= q <= 3)%Z.
Proof.
  apply (users_pagination_in_bounds
           [UsersNext; UsersNext; UsersNext; UsersPrevious]
           (pagination.mk (Num 2) (Num 10) (Num 25) (Num 3)) 2 3);
    [reflexivity | reflexivity | lia].
Defined.
